(** * QB45 binary symbol extractor: a shallow embedding of
    [tools/qb45_decoder/qb45_symbols.py] and the properties of its scanners,
    loader and reporter.

    Python values are modelled as follows.
    - [bytes] is a list of [Byte.byte]; indexing yields the byte's value in [Z].
    - [str] is a list of Unicode code points in [Z] (the string scanner can
      produce U+FFFD, which does not fit in an 8-bit character).
    - integers are [Z]; the one floating-point operation of the program
      ([length * 0.9]) is computed on binary64 primitive floats.
    - exceptions are the [Raise] outcome of a small error monad; [while] loops
      are driven by fuel, and running out of fuel is a separate outcome that is
      proved never to occur. *)

From Stdlib Require Import ZArith List Bool Lia String Ascii.
From Stdlib Require Import Strings.Byte DecimalString.
From Stdlib Require Import Sorting.Sorted Sorting.Permutation.
From Stdlib Require Import Floats.PrimFloat Numbers.Cyclic.Int63.Uint63.
Import ListNotations.

#[local] Set Warnings "-inexact-float".
#[local] Open Scope Z_scope.

(** ** Python values *)

Definition bytes := list byte.
Definition pystr := list Z.

Definition byte_val (b : byte) : Z := Z.of_N (Byte.to_N b).

(** [len(x)] *)
Definition len {A : Type} (l : list A) : Z := Z.of_nat (List.length l).

(** A string literal of the source, as code points. *)
Definition lit (s : string) : pystr :=
  List.map (fun a => Z.of_N (N_of_ascii a)) (list_ascii_of_string s).

Definition pystr_eq_dec : forall a b : pystr, {a = b} + {a <> b} :=
  list_eq_dec Z.eq_dec.

(** [x in xs] on a list of [str]: exact, case-sensitive comparison. *)
Definition mem (x : pystr) (xs : list pystr) : bool :=
  if in_dec pystr_eq_dec x xs then true else false.

(** ** Outcomes *)

Inductive exn :=
| IndexError
| UnicodeDecodeError
| TypeError
| IsADirectoryError
| FileNotFoundError
| SystemExit (code : Z).

Inductive result (A : Type) :=
| Ok (a : A)
| Raise (e : exn)
| OutOfFuel.
Arguments Ok {A} a.
Arguments Raise {A} e.
Arguments OutOfFuel {A}.

Definition bind {A B : Type} (r : result A) (k : A -> result B) : result B :=
  match r with
  | Ok a => k a
  | Raise e => Raise e
  | OutOfFuel => OutOfFuel
  end.

Notation "x <- c ;; k" := (bind c (fun x => k))
  (at level 61, c at next level, right associativity).

(** [data[i]]: a negative index counts from the end, an index out of range
    raises [IndexError]. *)
Definition getitem (data : bytes) (i : Z) : result Z :=
  let j := if i <? 0 then i + len data else i in
  if (0 <=? j) && (j <? len data)
  then Ok (byte_val (nth (Z.to_nat j) data x00))
  else Raise IndexError.

(** [data[a:b]] for [0 <= a <= b] (the only slices the program takes): the
    bounds are clamped to the buffer, nothing is raised. *)
Definition slice (data : bytes) (a b : Z) : bytes :=
  firstn (Z.to_nat (b - a)) (skipn (Z.to_nat a) data).

(** [32 <= b < 127] *)
Definition printable (b : byte) : bool :=
  (32 <=? byte_val b) && (byte_val b <? 127).

(** [bs.decode('ascii')]: raises on a byte above 127. *)
Definition decode_ascii (bs : bytes) : result pystr :=
  if forallb (fun b => byte_val b <? 128) bs
  then Ok (List.map byte_val bs)
  else Raise UnicodeDecodeError.

(** [bs.decode('ascii', errors='replace')]: each byte above 127 becomes
    U+FFFD. *)
Definition decode_ascii_replace (bs : bytes) : pystr :=
  List.map (fun b => if byte_val b <? 128 then byte_val b else 0xFFFD) bs.

(** ** Regular expressions of the source *)

Definition is_upper (c : Z) : bool := (65 <=? c) && (c <=? 90).
Definition is_lower (c : Z) : bool := (97 <=? c) && (c <=? 122).
Definition is_digit (c : Z) : bool := (48 <=? c) && (c <=? 57).
Definition is_alpha (c : Z) : bool := is_upper c || is_lower c.

(** [[A-Za-z_]] *)
Definition ident_start (c : Z) : bool := is_alpha c || (c =? 95).

(** [[A-Za-z0-9_$.%&#!]] *)
Definition var_char (c : Z) : bool :=
  is_alpha c || is_digit c || (c =? 95) || (c =? 36) || (c =? 46)
  || (c =? 37) || (c =? 38) || (c =? 35) || (c =? 33).

(** [[A-Za-z0-9_]] *)
Definition sub_char (c : Z) : bool := is_alpha c || is_digit c || (c =? 95).

Fixpoint drop_while (p : Z -> bool) (s : pystr) : pystr :=
  match s with
  | [] => []
  | c :: s' => if p c then drop_while p s' else s
  end.

(** [$] without [re.MULTILINE]: at the end of the string, or just before a
    newline that ends the string. *)
Definition at_dollar (s : pystr) : bool :=
  match s with
  | [] => true
  | [c] => c =? 10
  | _ => false
  end.

(** [re.match(r'^[start][rest]*$', s)].  The class [rest] never contains the
    newline, so the only split that can satisfy [$] is the one after the
    longest run of [rest] characters. *)
Definition match_ident (start rest : Z -> bool) (s : pystr) : bool :=
  match s with
  | [] => false
  | c :: s' => start c && at_dollar (drop_while rest s')
  end.

(** [re.match(r'^[A-Za-z_][A-Za-z0-9_$.%&#!]*$', name)] *)
Definition match_variable (name : pystr) : bool :=
  match_ident ident_start var_char name.

(** [re.match(r'^[A-Za-z_][A-Za-z0-9_]*$', name)] *)
Definition match_sub (name : pystr) : bool :=
  match_ident ident_start sub_char name.

(** [re.search(r'[A-Za-z]{2,}', s)] *)
Fixpoint search_letters (s : pystr) : bool :=
  match s with
  | c :: ((d :: _) as s') => (is_alpha c && is_alpha d) || search_letters s'
  | _ => false
  end.

(** [re.search(r'[\x00-\x1f]', s)] *)
Definition search_control (s : pystr) : bool :=
  existsb (fun c => (0 <=? c) && (c <=? 31)) s.

(** ** The symbol table *)

Record symbols := mkSymbols {
  subs : list pystr;
  functions : list pystr;
  types : list pystr;
  variables : list pystr;
  strings : list pystr
}.

Definition empty_symbols : symbols := mkSymbols [] [] [] [] [].

Definition append_subs (name : pystr) (s : symbols) : symbols :=
  mkSymbols (subs s ++ [name]) (functions s) (types s) (variables s) (strings s).
Definition append_types (name : pystr) (s : symbols) : symbols :=
  mkSymbols (subs s) (functions s) (types s ++ [name]) (variables s) (strings s).
Definition append_variables (name : pystr) (s : symbols) : symbols :=
  mkSymbols (subs s) (functions s) (types s) (variables s ++ [name]) (strings s).
Definition append_strings (str : pystr) (s : symbols) : symbols :=
  mkSymbols (subs s) (functions s) (types s) (variables s) (strings s ++ [str]).

(** ** [extract_symbols]: the name-record scanner *)

(** Lines 44-58: the [if]/[elif] chain on [flags]. *)
Definition classify (flags : Z) (name : pystr) (s : symbols) : symbols :=
  if flags =? 0x40 then
    if negb (mem name (subs s)) then append_subs name s else s
  else if flags =? 0x08 then
    if negb (mem name (types s)) then append_types name s else s
  else if flags =? 0x04 then
    if negb (mem name (subs s)) then append_subs name s else s
  else
    if negb (mem name (variables s)) && (1 <? len name) then
      if match_variable name then append_variables name s else s
    else s.

(** Lines 35-63: the generic record check.  [Some] is the [continue] of line
    61 with the new position; [None] is falling out of the block, either
    because a test failed or because the [try] body raised ([except: pass]). *)
Definition generic_record (data : bytes) (pos flags length : Z) (s : symbols)
  : option (Z * symbols) :=
  if (0 <? length) && (length <? 64) && (pos + 2 + length <=? len data) then
    let name_bytes := slice data (pos + 2) (pos + 2 + length) in
    if forallb printable name_bytes then
      match decode_ascii name_bytes with
      | Ok name => Some (pos + 2 + length, classify flags name s)
      | _ => None
      end
    else None
  else None.

(** Lines 66-78: the [@] prefix check.  The outer [result] carries an
    [IndexError] of the subscripts outside the [try]. *)
Definition at_record (data : bytes) (pos : Z) (s : symbols)
  : result (option (Z * symbols)) :=
  d <- getitem data pos ;;
  if (d =? 0x40) && (pos + 1 <? len data) then
    length <- getitem data (pos + 1) ;;
    if (0 <? length) && (length <? 64) && (pos + 2 + length <=? len data) then
      let name_bytes := slice data (pos + 2) (pos + 2 + length) in
      if forallb printable name_bytes then
        match decode_ascii name_bytes with
        | Ok name =>
            let s' :=
              if negb (mem name (subs s)) && match_sub name
              then append_subs name s else s in
            Ok (Some (pos + 2 + length, s'))
        | _ => Ok None
        end
      else Ok None
    else Ok None
  else Ok None.

(** One iteration of the first [while] loop (lines 27-80): the position and
    the table after it. *)
Definition name_step (data : bytes) (pos : Z) (s : symbols)
  : result (Z * symbols) :=
  flags <- getitem data pos ;;
  length <- getitem data (pos + 1) ;;
  match generic_record data pos flags length s with
  | Some next => Ok next
  | None =>
      r <- at_record data pos s ;;
      match r with
      | Some next => Ok next
      | None => Ok (pos + 1, s)
      end
  end.

(** The first [while] loop: [while pos < len(data) - 4]. *)
Fixpoint name_scan (fuel : nat) (data : bytes) (pos : Z) (s : symbols)
  : result symbols :=
  match fuel with
  | O => OutOfFuel
  | S fuel' =>
      if pos <? len data - 4 then
        st <- name_step data pos s ;;
        name_scan fuel' data (fst st) (snd st)
      else Ok s
  end.

(** ** [extract_symbols]: the string-literal scanner *)

(** The binary64 value of an integer; exact on the values of a byte and on
    the counts of bytes compared here. *)
Definition float_of_int (n : Z) : float := PrimFloat.of_uint63 (Uint63.of_Z n).

(** [printable_count > length * 0.9]: the product is a binary64 product; the
    comparison of the integer with it is exact (both are below 2^53). *)
Definition exceeds_ratio (printable_count length : Z) : bool :=
  PrimFloat.ltb (PrimFloat.mul (float_of_int length) 0.9%float)
                (float_of_int printable_count).

(** One iteration of the second [while] loop (lines 85-100); the position
    always advances by one, so only the table is returned. *)
Definition string_step (data : bytes) (pos : Z) (s : symbols) : result symbols :=
  length <- getitem data pos ;;
  if (5 <? length) && (length <? 200) && (pos + 1 + length <=? len data) then
    let str_bytes := slice data (pos + 1) (pos + 1 + length) in
    let printable_count := len (filter printable str_bytes) in
    if exceeds_ratio printable_count length then
      let str := decode_ascii_replace str_bytes in
      if search_letters str && negb (mem str (strings s)) then
        if negb (search_control str) then Ok (append_strings str s) else Ok s
      else Ok s
    else Ok s
  else Ok s.

(** The second [while] loop: [while pos < len(data) - 5]. *)
Fixpoint string_scan (fuel : nat) (data : bytes) (pos : Z) (s : symbols)
  : result symbols :=
  match fuel with
  | O => OutOfFuel
  | S fuel' =>
      if pos <? len data - 5 then
        s' <- string_step data pos s ;;
        string_scan fuel' data (pos + 1) s'
      else Ok s
  end.

(** Every iteration advances the position by at least one, so the buffer's
    length plus one bounds the number of loop tests. *)
Definition scan_fuel (data : bytes) : nat := S (List.length data).

Definition extract_symbols (data : bytes) : result symbols :=
  s1 <- name_scan (scan_fuel data) data 0 empty_symbols ;;
  string_scan (scan_fuel data) data 0 s1.

(** The scanner with the [@] prefix check (lines 65-78) deleted: the generic
    check, then the one-byte advance. *)
Definition name_step_no_at (data : bytes) (pos : Z) (s : symbols)
  : result (Z * symbols) :=
  flags <- getitem data pos ;;
  length <- getitem data (pos + 1) ;;
  match generic_record data pos flags length s with
  | Some next => Ok next
  | None => Ok (pos + 1, s)
  end.

Fixpoint name_scan_no_at (fuel : nat) (data : bytes) (pos : Z) (s : symbols)
  : result symbols :=
  match fuel with
  | O => OutOfFuel
  | S fuel' =>
      if pos <? len data - 4 then
        st <- name_step_no_at data pos s ;;
        name_scan_no_at fuel' data (fst st) (snd st)
      else Ok s
  end.

Definition extract_symbols_no_at (data : bytes) : result symbols :=
  s1 <- name_scan_no_at (scan_fuel data) data 0 empty_symbols ;;
  string_scan (scan_fuel data) data 0 s1.

(** ** The file system and [analyze_file] *)

Inductive node :=
| File (content : bytes)
| Directory.

(** What a path names, if anything. *)
Definition filesystem := pystr -> option node.

(** [os.path.exists(filepath)] *)
Definition path_exists (fs : filesystem) (filepath : pystr) : bool :=
  match fs filepath with
  | Some _ => true
  | None => false
  end.

(** [open(filepath, 'rb')] followed by [f.read()]. *)
Definition read_file (fs : filesystem) (filepath : pystr) : result bytes :=
  match fs filepath with
  | Some (File content) => Ok content
  | Some Directory => Raise IsADirectoryError
  | None => Raise FileNotFoundError
  end.

Definition not_qb45 : pystr := lit "Not a QB45 binary format file".

(** [len(data) < 2 or data[0] != 0xFC] *)
Definition bad_signature (data : bytes) : result bool :=
  if len data <? 2 then Ok true
  else d <- getitem data 0 ;; Ok (negb (d =? 0xFC)).

Definition analyze_file (fs : filesystem) (filepath : pystr)
  : result (option symbols * option pystr) :=
  data <- read_file fs filepath ;;
  bad <- bad_signature data ;;
  if bad then Ok (None, Some not_qb45)
  else s <- extract_symbols data ;; Ok (Some s, None).

(** ** The reporter *)

(** [a <= b] on [str]: lexicographic on code points. *)
Fixpoint str_leb (a b : pystr) : bool :=
  match a, b with
  | [], _ => true
  | _ :: _, [] => false
  | x :: a', y :: b' =>
      if x <? y then true else if y <? x then false else str_leb a' b'
  end.

Fixpoint insert_sorted (x : pystr) (l : list pystr) : list pystr :=
  match l with
  | [] => [x]
  | y :: l' => if str_leb x y then x :: l else y :: insert_sorted x l'
  end.

(** [sorted(names)]: the ascending arrangement of the list. *)
Definition sorted (l : list pystr) : list pystr :=
  fold_right insert_sorted [] l.

(** [str(n)] as the f-strings format an integer. *)
Definition str_of_int (n : Z) : pystr := lit (NilZero.string_of_int (Z.to_int n)).

Definition indent (name : pystr) : pystr := lit "    " ++ name.

(** Lines 137-140. *)
Definition report_subs (s : symbols) : list pystr :=
  match subs s with
  | [] => []
  | _ :: _ =>
      (lit "  SUBs/FUNCTIONs (" ++ str_of_int (len (subs s)) ++ lit "):")
        :: List.map indent (sorted (subs s))
  end.

(** Lines 142-145. *)
Definition report_types (s : symbols) : list pystr :=
  match types s with
  | [] => []
  | _ :: _ =>
      (lit "  TYPEs (" ++ str_of_int (len (types s)) ++ lit "):")
        :: List.map indent (sorted (types s))
  end.

(** Lines 147-155. *)
Definition report_variables (s : symbols) : list pystr :=
  match variables s with
  | [] => []
  | _ :: _ =>
      let interesting := filter (fun v => 3 <? len v) (variables s) in
      match interesting with
      | [] => []
      | _ :: _ =>
          (lit "  Variables (" ++ str_of_int (len interesting) ++ lit " shown):")
            :: List.map indent (firstn 30 (sorted interesting))
            ++ (if 30 <? len interesting
                then [lit "    ... and " ++ str_of_int (len interesting - 30)
                        ++ lit " more"]
                else [])
      end
  end.

Definition quote : pystr := [34].

(** Line 163: the string between quotes, cut to 50 characters and marked
    with an ellipsis when it was longer. *)
Definition show_string (str : pystr) : pystr :=
  lit "    " ++ quote ++ firstn 50 str
    ++ (if 50 <? len str then lit "..." else []) ++ quote.

(** Lines 157-163. *)
Definition report_strings (s : symbols) : list pystr :=
  match strings s with
  | [] => []
  | _ :: _ =>
      let interesting := firstn 10 (filter (fun str => 10 <? len str) (strings s)) in
      match interesting with
      | [] => []
      | _ :: _ =>
          lit "  String literals (sample):" :: List.map show_string interesting
      end
  end.

(** The lines printed for a table (lines 137-165), the closing empty line
    included. *)
Definition report (s : symbols) : list pystr :=
  report_subs s ++ report_types s ++ report_variables s ++ report_strings s
    ++ [[]].

(** ** [main] *)

Inductive event :=
| Stdout (line : pystr)
| Stderr (line : pystr).

(** A computation that prints: what it printed, and how it ended. *)
Definition io (A : Type) : Type := list event * result A.

Definition io_bind {A B : Type} (c : io A) (k : A -> io B) : io B :=
  match c with
  | (out, Ok a) => let (out', r) := k a in (out ++ out', r)
  | (out, Raise e) => (out, Raise e)
  | (out, OutOfFuel) => (out, OutOfFuel)
  end.

Notation "x <~ c ;; k" := (io_bind c (fun x => k))
  (at level 61, c at next level, right associativity).

Definition print (line : pystr) : io unit := ([Stdout line], Ok tt).
Definition print_err (line : pystr) : io unit := ([Stderr line], Ok tt).
Definition print_lines (lines : list pystr) : io unit :=
  (List.map Stdout lines, Ok tt).
Definition lift {A : Type} (r : result A) : io A := ([], r).

(** [os.path.basename]: what follows the last slash. *)
Definition basename (p : pystr) : pystr :=
  fold_left (fun acc c => if c =? 47 then [] else acc ++ [c]) p [].

(** The truth value of [error]: [None] and the empty string are false. *)
Definition truthy (error : option pystr) : bool :=
  match error with
  | Some (_ :: _) => true
  | _ => false
  end.

(** The body of the [for] loop of [main] (lines 125-165). *)
Definition main_file (fs : filesystem) (filepath : pystr) : io unit :=
  if negb (path_exists fs filepath) then
    print_err (lit "File not found: " ++ filepath)
  else
    _ <~ print (lit "=== " ++ basename filepath ++ lit " ===") ;;
    r <~ lift (analyze_file fs filepath) ;;
    if truthy (snd r) then
      print (lit "  Error: " ++ match snd r with Some e => e | None => [] end)
    else
      match fst r with
      | Some s => print_lines (report s)
      | None => lift (Raise TypeError)
      end.

(** [for filepath in sys.argv[1:]]: an exception ends the loop. *)
Fixpoint for_each (body : pystr -> io unit) (paths : list pystr) : io unit :=
  match paths with
  | [] => ([], Ok tt)
  | p :: rest => _ <~ body p ;; for_each body rest
  end.

Definition usage : list pystr :=
  [ lit "QB45 Binary Symbol Extractor";
    lit "Usage: python qb45_symbols.py <file.BAS> [file2.BAS ...]";
    [];
    lit "Extracts SUB/FUNCTION names, TYPE definitions, and variables";
    lit "from tokenized QuickBASIC 4.5 binary .BAS files." ].

(** [main()], given [sys.argv].  [sys.exit(1)] raises [SystemExit]. *)
Definition main (fs : filesystem) (argv : list pystr) : io unit :=
  if len argv <? 2 then
    _ <~ print_lines usage ;; lift (Raise (SystemExit 1))
  else for_each (main_file fs) (tl argv).

(** * Vocabulary of the properties *)

(** The three tests of line 35 and the test of line 39. *)
Definition accepted (data : bytes) (pos length : Z) : bool :=
  (0 <? length) && (length <? 64) && (pos + 2 + length <=? len data)
  && forallb printable (slice data (pos + 2) (pos + 2 + length)).

(** The name of the record at [pos], as line 41 decodes it. *)
Definition record_name (data : bytes) (pos length : Z) : pystr :=
  List.map byte_val (slice data (pos + 2) (pos + 2 + length)).

(** [add_new x xs]: [xs] with [x] put at its end unless it is there. *)
Definition add_new (x : pystr) (xs : list pystr) : list pystr :=
  if mem x xs then xs else xs ++ [x].

(** The pattern of line 57 on a whole name: a first character of
    [[A-Za-z_]] followed by characters of [[A-Za-z0-9_$.%&#!]] only. *)
Definition identifier (name : pystr) : bool :=
  match name with
  | [] => false
  | c :: rest => ident_start c && forallb var_char rest
  end.

Definition no_duplicates (s : symbols) : Prop :=
  NoDup (subs s) /\ NoDup (functions s) /\ NoDup (types s)
  /\ NoDup (variables s) /\ NoDup (strings s).

(** Nothing is ever removed from a list, and [functions] is never touched. *)
Definition extends (s s' : symbols) : Prop :=
  incl (subs s) (subs s') /\ functions s' = functions s
  /\ incl (types s) (types s') /\ incl (variables s) (variables s')
  /\ incl (strings s) (strings s').

(** [visits data pos s]: the test of line 26 is evaluated with the position
    [pos] and the table [s]. *)
Inductive visits (data : bytes) : Z -> symbols -> Prop :=
| visits_first : visits data 0 empty_symbols
| visits_next pos s pos' s' :
    visits data pos s ->
    pos < len data - 4 ->
    name_step data pos s = Ok (pos', s') ->
    visits data pos' s'.

(** The binary64 test of line 90 on the whole range of a length byte, checked
    by evaluating it: it holds exactly when [printable_count / length]
    exceeds the exact ratio 9/10. *)
Definition ratio_table_ok : bool :=
  forallb
    (fun l =>
       forallb
         (fun c =>
            Bool.eqb (exceeds_ratio (Z.of_nat c) (Z.of_nat l))
                     (9 * Z.of_nat l <? 10 * Z.of_nat c))
         (seq 0 (S l)))
    (seq 0 256).

(** A candidate record at [pos] with length byte [length]: the length is in
    range, the record fits in the buffer, and every payload byte is in
    [[0x20, 0x7F)]. *)
Definition valid_record (data : bytes) (pos length : Z) : Prop :=
  0 < length < 64
  /\ pos + 2 + length <= len data
  /\ forall b, In b (slice data (pos + 2) (pos + 2 + length)) ->
               0x20 <= byte_val b < 0x7F.

(** ** Sample buffers and tables *)

(** [b'\xFC\x40\x05HELLO'] *)
Definition hello_file : bytes := [xfc; x40; x05; x48; x45; x4c; x4c; x4f].

(** [b'\xFC\x08\x06PointT'] *)
Definition point_file : bytes := [xfc; x08; x06; x50; x6f; x69; x6e; x74; x54].

(** [b'\xFC\x40\x03FOO\x40\x03FOO'] *)
Definition foo_twice : bytes :=
  [xfc; x40; x03; x46; x4f; x4f; x40; x03; x46; x4f; x4f].

(** [b'\xFC\x40\x03F\x00OAAAA']: a zero byte inside the payload. *)
Definition zero_in_name : bytes :=
  [xfc; x40; x03; x46; x00; x4f; x41; x41; x41; x41].

(** [b'\xFC\x40\x02AB']: a record whose flag byte is four bytes from the end. *)
Definition record_at_tail : bytes := [xfc; x40; x02; x41; x42].

(** [b'\xFC\x01\x40\x03FOO']: a record whose flag byte is five bytes from the
    end and is the payload of the record before it. *)
Definition record_swallowed : bytes := [xfc; x01; x40; x03; x46; x4f; x4f].

(** A length byte of 10 followed by nine letters and one DEL (0x7F): the
    printable share is exactly nine tenths. *)
Definition nine_tenths : bytes :=
  [x0a; x41; x42; x43; x44; x45; x46; x47; x48; x49; x7f].

(** The same with a tenth letter in place of DEL. *)
Definition ten_tenths : bytes :=
  [x0a; x41; x42; x43; x44; x45; x46; x47; x48; x49; x4a].

(** A file system with one file of the given content. *)
Definition one_file (name : pystr) (content : bytes) : filesystem :=
  fun p => if pystr_eq_dec p name then Some (File content) else None.

Definition str_le (a b : pystr) : Prop := str_leb a b = true.

(** A table whose lists are in descending order. *)
Definition descending : symbols :=
  mkSymbols [lit "ZED"; lit "ABE"] [] [] []
            [lit "zebra crossing"; lit "short"; lit "apple orchard"].

(** A directory whose name ends in .BAS, and a file. *)
Definition folder_and_file : filesystem :=
  fun p =>
    if pystr_eq_dec p (lit "SAVES.BAS") then Some Directory
    else if pystr_eq_dec p (lit "HELLO.BAS") then Some (File hello_file)
    else None.

(** ** Further vocabulary *)

(** The table [s] with [strs] for its list of strings. *)
Definition with_strings (s : symbols) (strs : list pystr) : symbols :=
  mkSymbols (subs s) (functions s) (types s) (variables s) strs.

(** A character in the printable range [[0x20, 0x7F)]. *)
Definition printable_char (c : Z) : bool := (32 <=? c) && (c <? 127).


(** The lines an output sends to standard output, in order. *)
Definition stdout_lines (out : list event) : list pystr :=
  flat_map (fun e => match e with Stdout line => [line] | Stderr _ => [] end) out.

(** The variables the reporter shows: those of more than 3 characters. *)
Definition interesting_variables (s : symbols) : list pystr :=
  filter (fun v => 3 <? len v) (variables s).

(** [b'\x40\x01A\x00\x00']: five bytes, one record. *)
Definition five_bytes : bytes := [x40; x01; x41; x00; x00].

(** [b'\x06ABCDEF']: seven bytes, one string. *)
Definition seven_bytes : bytes := [x06; x41; x42; x43; x44; x45; x46].

(** [b'\xFC\x00\x05count\x00\x02x1\x00\x01y\x08\x03Rec....']: variables
    and a type. *)
Definition mixed_file : bytes :=
  [xfc; x00; x05; x63; x6f; x75; x6e; x74; x00; x02; x78; x31;
   x00; x01; x79; x08; x03; x52; x65; x63; x00; x00; x00; x00].

(** A text file, a missing path and two good files around a directory. *)
Definition mixed_folder : filesystem :=
  fun p =>
    if pystr_eq_dec p (lit "README.BAS") then Some (File [x52; x45; x4d])
    else if pystr_eq_dec p (lit "HELLO.BAS") then Some (File hello_file)
    else if pystr_eq_dec p (lit "SAVES.BAS") then Some Directory
    else if pystr_eq_dec p (lit "POINT.BAS") then Some (File point_file)
    else None.

(** What a string of the table looks like. *)
Definition text_like (str : pystr) : Prop :=
  5 < len str < 200
  /\ search_letters str = true
  /\ search_control str = false
  /\ Forall (fun c => 0 <= c < 128 \/ c = 0xFFFD) str
  /\ 9 * len str < 10 * len (filter printable_char str).

(** What a name of the table looks like. *)
Definition name_like (name : pystr) : Prop :=
  0 < len name < 64 /\ Forall (fun c => 0x20 <= c < 0x7F) name.

Definition names_well_formed (s : symbols) : Prop :=
  Forall name_like (subs s) /\ Forall name_like (types s)
  /\ Forall (fun v => name_like v /\ 1 < len v /\ identifier v = true)
            (variables s).

(** A table with one variable long enough to be shown and two that are
    not. *)
Definition few_variables : symbols :=
  mkSymbols [] [] [] [lit "x1"; lit "count"; lit "abc"] [].

(** The header of the section of variables. *)
Definition variables_header (n : Z) : pystr :=
  lit "  Variables (" ++ str_of_int n ++ lit " shown):".

(** * Properties *)

(** ** Bytes, subscripts and slices *)

Lemma byte_val_range (b : byte) : 0 <= byte_val b < 256.
Proof.
  unfold byte_val. pose proof (Byte.to_N_bounded b) as H.
  lia.
Qed.

Lemma len_nonneg {A : Type} (l : list A) : 0 <= len l.
Proof. unfold len. lia. Qed.

Lemma getitem_in_range (data : bytes) (i : Z) :
  0 <= i < len data ->
  getitem data i = Ok (byte_val (nth (Z.to_nat i) data x00)).
Proof.
  intros Hi. unfold getitem.
  replace (i <? 0) with false by (symmetry; apply Z.ltb_ge; lia).
  replace (0 <=? i) with true by (symmetry; apply Z.leb_le; lia).
  replace (i <? len data) with true by (symmetry; apply Z.ltb_lt; lia).
  reflexivity.
Qed.

Lemma getitem_value_range (data : bytes) (i v : Z) :
  getitem data i = Ok v -> 0 <= v < 256.
Proof.
  unfold getitem. destruct (_ && _); [|discriminate].
  intros H. injection H as <-. apply byte_val_range.
Qed.

Lemma printable_is_ascii (bs : bytes) :
  forallb printable bs = true -> decode_ascii bs = Ok (List.map byte_val bs).
Proof.
  intros H. unfold decode_ascii.
  replace (forallb (fun b => byte_val b <? 128) bs) with true; [reflexivity|].
  symmetry. rewrite forallb_forall in *. intros b Hb.
  specialize (H b Hb). unfold printable in H.
  apply andb_true_iff in H as [_ H]. apply Z.ltb_lt in H. apply Z.ltb_lt. lia.
Qed.

Lemma slice_length (data : bytes) (a b : Z) :
  0 <= a -> a <= b -> b <= len data -> len (slice data a b) = b - a.
Proof.
  intros Ha Hab Hb. unfold slice, len in *.
  rewrite length_firstn, length_skipn. lia.
Qed.

(** ** The generic record check decides alone *)

Lemma generic_record_accepted data pos flags length s :
  accepted data pos length = true ->
  generic_record data pos flags length s
  = Some (pos + 2 + length, classify flags (record_name data pos length) s).
Proof.
  unfold accepted, generic_record, record_name. intros H.
  apply andb_true_iff in H as [H1 H2]. rewrite H1, H2.
  rewrite (printable_is_ascii _ H2). reflexivity.
Qed.

Lemma generic_record_rejected data pos flags length s :
  accepted data pos length = false ->
  generic_record data pos flags length s = None.
Proof.
  unfold accepted, generic_record. intros H.
  destruct ((0 <? length) && (length <? 64) && (pos + 2 + length <=? len data));
    [|reflexivity].
  simpl in H. rewrite H. reflexivity.
Qed.

(** Once line 35 or line 39 has turned the record down, lines 68 and 70 turn
    it down again: they are the same tests on the same bytes. *)
Lemma at_record_after_rejection data pos flags length s :
  getitem data pos = Ok flags ->
  getitem data (pos + 1) = Ok length ->
  accepted data pos length = false ->
  at_record data pos s = Ok None.
Proof.
  intros Hf Hl Hrej. unfold at_record. rewrite Hf. simpl.
  destruct ((flags =? 64) && (pos + 1 <? len data)); [|reflexivity].
  rewrite Hl. simpl. unfold accepted in Hrej.
  destruct ((0 <? length) && (length <? 64) && (pos + 2 + length <=? len data));
    [|reflexivity].
  simpl in Hrej. rewrite Hrej. reflexivity.
Qed.

Lemma name_step_accepted data pos flags length s :
  getitem data pos = Ok flags ->
  getitem data (pos + 1) = Ok length ->
  accepted data pos length = true ->
  name_step data pos s
  = Ok (pos + 2 + length, classify flags (record_name data pos length) s).
Proof.
  intros Hf Hl Hacc. unfold name_step. rewrite Hf, Hl. simpl.
  rewrite (generic_record_accepted _ _ _ _ _ Hacc). reflexivity.
Qed.

Lemma name_step_rejected data pos flags length s :
  getitem data pos = Ok flags ->
  getitem data (pos + 1) = Ok length ->
  accepted data pos length = false ->
  name_step data pos s = Ok (pos + 1, s).
Proof.
  intros Hf Hl Hrej. unfold name_step. rewrite Hf, Hl. simpl.
  rewrite (generic_record_rejected _ _ _ _ _ Hrej).
  rewrite (at_record_after_rejection _ _ _ _ _ Hf Hl Hrej). reflexivity.
Qed.

Lemma name_step_eq_no_at data pos s :
  name_step data pos s = name_step_no_at data pos s.
Proof.
  unfold name_step_no_at.
  destruct (getitem data pos) as [flags| |] eqn:Hf;
    try (unfold name_step; rewrite Hf; reflexivity).
  destruct (getitem data (pos + 1)) as [length| |] eqn:Hl;
    try (unfold name_step; rewrite Hf, Hl; reflexivity).
  simpl. destruct (accepted data pos length) eqn:Hacc.
  - rewrite (name_step_accepted _ _ _ _ _ Hf Hl Hacc).
    rewrite (generic_record_accepted _ _ _ _ _ Hacc). reflexivity.
  - rewrite (name_step_rejected _ _ _ _ _ Hf Hl Hacc).
    rewrite (generic_record_rejected _ _ _ _ _ Hacc). reflexivity.
Qed.

Lemma name_scan_eq_no_at fuel data :
  forall pos s, name_scan fuel data pos s = name_scan_no_at fuel data pos s.
Proof.
  induction fuel as [|fuel IH]; intros pos s; simpl; [reflexivity|].
  destruct (pos <? len data - 4); [|reflexivity].
  rewrite name_step_eq_no_at.
  destruct (name_step_no_at data pos s) as [[pos' s']| |]; simpl;
    [apply IH|reflexivity|reflexivity].
Qed.

(** ** The loops end *)

Lemma name_step_advances data pos s :
  0 <= pos < len data - 4 ->
  exists pos' s', name_step data pos s = Ok (pos', s') /\ pos < pos'.
Proof.
  intros Hpos.
  pose proof (getitem_in_range data pos ltac:(lia)) as Hf.
  pose proof (getitem_in_range data (pos + 1) ltac:(lia)) as Hl.
  pose proof (getitem_value_range _ _ _ Hl) as Hr.
  destruct (accepted data pos (byte_val (nth (Z.to_nat (pos + 1)) data x00)))
    eqn:Hacc.
  - rewrite (name_step_accepted _ _ _ _ _ Hf Hl Hacc).
    eexists _, _. split; [reflexivity|lia].
  - rewrite (name_step_rejected _ _ _ _ _ Hf Hl Hacc).
    eexists _, _. split; [reflexivity|lia].
Qed.

Lemma name_scan_returns fuel data :
  forall pos s,
    0 <= pos -> Z.max 0 (len data - 4 - pos) < Z.of_nat fuel ->
    exists r, name_scan fuel data pos s = Ok r.
Proof.
  induction fuel as [|fuel IH]; intros pos s Hpos Hfuel; [lia|].
  simpl. destruct (Z.ltb_spec pos (len data - 4)) as [Hlt|Hge].
  - destruct (name_step_advances data pos s ltac:(lia)) as (pos' & s' & -> & Hadv).
    simpl. apply IH; lia.
  - eexists; reflexivity.
Qed.

Lemma string_step_returns data pos s :
  0 <= pos < len data - 5 -> exists s', string_step data pos s = Ok s'.
Proof.
  intros Hpos. unfold string_step.
  rewrite (getitem_in_range data pos ltac:(lia)). simpl.
  repeat match goal with
         | |- context [if ?c then _ else _] => destruct c
         end; eexists; reflexivity.
Qed.

Lemma string_scan_returns fuel data :
  forall pos s,
    0 <= pos -> Z.max 0 (len data - 5 - pos) < Z.of_nat fuel ->
    exists r, string_scan fuel data pos s = Ok r.
Proof.
  induction fuel as [|fuel IH]; intros pos s Hpos Hfuel; [lia|].
  simpl. destruct (Z.ltb_spec pos (len data - 5)) as [Hlt|Hge].
  - destruct (string_step_returns data pos s ltac:(lia)) as (s' & ->).
    simpl. apply IH; lia.
  - eexists; reflexivity.
Qed.

Lemma scan_fuel_enough data : Z.max 0 (len data - 4 - 0) < Z.of_nat (scan_fuel data)
  /\ Z.max 0 (len data - 5 - 0) < Z.of_nat (scan_fuel data).
Proof. unfold scan_fuel, len. lia. Qed.

(** [extract_symbols] returns a table on every buffer: no subscript is out of
    range and both loops end. *)
Lemma extract_symbols_returns data : exists s, extract_symbols data = Ok s.
Proof.
  unfold extract_symbols.
  destruct (scan_fuel_enough data) as [H4 H5].
  destruct (name_scan_returns _ data 0 empty_symbols ltac:(lia) H4) as (s1 & ->).
  cbn [bind]. apply string_scan_returns; [lia|exact H5].
Qed.

(** ** What one iteration can do to the table *)

Lemma mem_true x xs : mem x xs = true <-> In x xs.
Proof. unfold mem. destruct (in_dec pystr_eq_dec x xs); split; intros; easy. Qed.

Lemma mem_false x xs : mem x xs = false <-> ~ In x xs.
Proof. unfold mem. destruct (in_dec pystr_eq_dec x xs); split; intros; easy. Qed.

Lemma add_new_In x xs : In x (add_new x xs).
Proof.
  unfold add_new. destruct (mem x xs) eqn:H.
  - apply mem_true, H.
  - apply in_or_app. right. left. reflexivity.
Qed.

Lemma add_new_incl x xs : incl xs (add_new x xs).
Proof.
  unfold add_new. destruct (mem x xs); [apply incl_refl|apply incl_appl, incl_refl].
Qed.

Lemma NoDup_snoc (x : pystr) xs : NoDup xs -> ~ In x xs -> NoDup (xs ++ [x]).
Proof.
  intros Hnd Hx. apply NoDup_app; [exact Hnd|repeat constructor; easy|].
  intros y Hy [<-|[]]. exact (Hx Hy).
Qed.

Lemma add_new_NoDup x xs : NoDup xs -> NoDup (add_new x xs).
Proof.
  intros H. unfold add_new. destruct (mem x xs) eqn:Hm; [exact H|].
  apply NoDup_snoc; [exact H|apply mem_false, Hm].
Qed.

(** The table after [classify], one list at a time. *)
Lemma classify_fields flags name s :
  functions (classify flags name s) = functions s
  /\ strings (classify flags name s) = strings s
  /\ subs (classify flags name s)
     = (if (flags =? 0x40) || (flags =? 0x04) then add_new name (subs s)
        else subs s)
  /\ types (classify flags name s)
     = (if flags =? 0x08 then add_new name (types s) else types s)
  /\ variables (classify flags name s)
     = (if (flags =? 0x40) || (flags =? 0x08) || (flags =? 0x04) then variables s
        else if (1 <? len name) && match_variable name
             then add_new name (variables s) else variables s).
Proof.
  unfold classify, add_new.
  destruct (Z.eqb_spec flags 64) as [->|H40]; simpl.
  { destruct (mem name (subs s)); simpl; auto. }
  destruct (Z.eqb_spec flags 8) as [->|H08]; simpl.
  { destruct (mem name (types s)); simpl; auto. }
  destruct (Z.eqb_spec flags 4) as [->|H04]; simpl.
  { destruct (mem name (subs s)); simpl; auto. }
  destruct (mem name (variables s)); simpl;
    destruct (1 <? len name); simpl; auto;
    destruct (match_variable name); simpl; auto.
Qed.

Lemma extends_refl s : extends s s.
Proof. repeat split; try apply incl_refl. Qed.

Lemma extends_trans s1 s2 s3 : extends s1 s2 -> extends s2 s3 -> extends s1 s3.
Proof.
  intros (A1 & A2 & A3 & A4 & A5) (B1 & B2 & B3 & B4 & B5).
  repeat split; try (eapply incl_tran; eassumption). congruence.
Qed.

Lemma classify_no_duplicates flags name s :
  no_duplicates s -> no_duplicates (classify flags name s).
Proof.
  intros (H1 & H2 & H3 & H4 & H5).
  destruct (classify_fields flags name s) as (E2 & E5 & E1 & E3 & E4).
  unfold no_duplicates. rewrite E1, E2, E3, E4, E5.
  repeat split; auto;
    repeat match goal with
           | |- context [if ?c then _ else _] => destruct c
           end; auto using add_new_NoDup.
Qed.

Lemma classify_extends flags name s : extends s (classify flags name s).
Proof.
  destruct (classify_fields flags name s) as (E2 & E5 & E1 & E3 & E4).
  unfold extends. rewrite E1, E2, E3, E4, E5.
  repeat split; auto;
    repeat match goal with
           | |- context [if ?c then _ else _] => destruct c
           end; auto using add_new_incl, incl_refl.
Qed.

(** An iteration of the first loop either skips one byte and leaves the
    table alone, or consumes an accepted record and classifies its name. *)
Lemma name_step_cases data pos s pos' s' :
  name_step data pos s = Ok (pos', s') ->
  (pos' = pos + 1 /\ s' = s)
  \/ exists flags length,
       getitem data pos = Ok flags /\ getitem data (pos + 1) = Ok length
       /\ accepted data pos length = true
       /\ pos' = pos + 2 + length
       /\ s' = classify flags (record_name data pos length) s.
Proof.
  intros H.
  destruct (getitem data pos) as [flags| |] eqn:Hf;
    try (unfold name_step in H; rewrite Hf in H; discriminate).
  destruct (getitem data (pos + 1)) as [length| |] eqn:Hl;
    try (unfold name_step in H; rewrite Hf, Hl in H; discriminate).
  destruct (accepted data pos length) eqn:Hacc.
  - rewrite (name_step_accepted _ _ _ _ _ Hf Hl Hacc) in H.
    injection H as <- <-. right. exists flags, length. auto.
  - rewrite (name_step_rejected _ _ _ _ _ Hf Hl Hacc) in H.
    injection H as <- <-. left. auto.
Qed.

(** An iteration of the second loop leaves the table alone or puts one new
    string at the end of [strings]. *)
Lemma string_step_cases data pos s s' :
  string_step data pos s = Ok s' ->
  s' = s \/ exists str, ~ In str (strings s) /\ s' = append_strings str s.
Proof.
  unfold string_step.
  destruct (getitem data pos) as [length| |]; simpl; try discriminate.
  destruct (_ && _); [|intros [= <-]; auto].
  destruct (exceeds_ratio _ _); [|intros [= <-]; auto].
  destruct (search_letters _); simpl; [|intros [= <-]; auto].
  destruct (mem _ (strings s)) eqn:Hm; simpl; [intros [= <-]; auto|].
  destruct (search_control _); simpl; intros [= <-]; auto.
  right. eexists. split; [apply mem_false, Hm|reflexivity].
Qed.

Section Invariant.
Variable data : bytes.
Variable P : symbols -> Prop.

(** A property kept by every iteration holds when the loop is left. *)
Lemma name_scan_keeps :
  (forall pos s pos' s', name_step data pos s = Ok (pos', s') -> P s -> P s') ->
  forall fuel pos s r, name_scan fuel data pos s = Ok r -> P s -> P r.
Proof.
  intros Hstep. induction fuel as [|fuel IH]; intros pos s r; simpl;
    [discriminate|].
  destruct (pos <? len data - 4); [|intros [= <-]; auto].
  destruct (name_step data pos s) as [[pos' s']| |] eqn:Hs; simpl;
    try discriminate.
  intros Hr Hp. eapply IH; [exact Hr|]. eapply Hstep; eassumption.
Qed.

Lemma string_scan_keeps :
  (forall pos s s', string_step data pos s = Ok s' -> P s -> P s') ->
  forall fuel pos s r, string_scan fuel data pos s = Ok r -> P s -> P r.
Proof.
  intros Hstep. induction fuel as [|fuel IH]; intros pos s r; simpl;
    [discriminate|].
  destruct (pos <? len data - 5); [|intros [= <-]; auto].
  destruct (string_step data pos s) as [s'| |] eqn:Hs; simpl;
    try discriminate.
  intros Hr Hp. eapply IH; [exact Hr|]. eapply Hstep; eassumption.
Qed.
End Invariant.

Lemma name_step_no_duplicates data pos s pos' s' :
  name_step data pos s = Ok (pos', s') -> no_duplicates s -> no_duplicates s'.
Proof.
  intros H Hs. apply name_step_cases in H as [[_ ->]|(f & l & _ & _ & _ & _ & ->)];
    auto using classify_no_duplicates.
Qed.

Lemma name_step_extends data pos s pos' s' :
  name_step data pos s = Ok (pos', s') -> extends s s'.
Proof.
  intros H. apply name_step_cases in H as [[_ ->]|(f & l & _ & _ & _ & _ & ->)];
    auto using classify_extends, extends_refl.
Qed.

Lemma string_step_no_duplicates data pos s s' :
  string_step data pos s = Ok s' -> no_duplicates s -> no_duplicates s'.
Proof.
  intros H (H1 & H2 & H3 & H4 & H5).
  apply string_step_cases in H as [->|(str & Hnew & ->)];
    unfold no_duplicates; simpl; auto 10 using NoDup_snoc.
Qed.

Lemma string_step_extends data pos s s' :
  string_step data pos s = Ok s' -> extends s s'.
Proof.
  intros H. apply string_step_cases in H as [->|(str & Hnew & ->)];
    [apply extends_refl|].
  unfold extends. simpl. auto 10 using incl_refl, incl_appl.
Qed.

Lemma name_scan_extends data fuel pos s r :
  name_scan fuel data pos s = Ok r -> extends s r.
Proof.
  intros H.
  apply (name_scan_keeps data (extends s)) with (fuel := fuel) (pos := pos) (s := s);
    auto using extends_refl.
  intros p t p' t' Ht Hst. eapply extends_trans; [exact Hst|].
  eapply name_step_extends, Ht.
Qed.

Lemma string_scan_extends data fuel pos s r :
  string_scan fuel data pos s = Ok r -> extends s r.
Proof.
  intros H.
  apply (string_scan_keeps data (extends s)) with (fuel := fuel) (pos := pos) (s := s);
    auto using extends_refl.
  intros p t t' Ht Hst. eapply extends_trans; [exact Hst|].
  eapply string_step_extends, Ht.
Qed.

Lemma extract_symbols_no_duplicates data s :
  extract_symbols data = Ok s -> no_duplicates s.
Proof.
  unfold extract_symbols.
  destruct (name_scan _ data 0 empty_symbols) as [s1| |] eqn:H1; cbn [bind];
    try discriminate.
  intros H2.
  eapply (string_scan_keeps data no_duplicates); [|exact H2|].
  - intros; eapply string_step_no_duplicates; eassumption.
  - eapply (name_scan_keeps data no_duplicates); [|exact H1|].
    + intros; eapply name_step_no_duplicates; eassumption.
    + repeat split; constructor.
Qed.

(** ** The positions the first loop tests *)

Lemma visits_nonneg data pos s : visits data pos s -> 0 <= pos.
Proof.
  induction 1 as [|pos s pos' s' _ IH Hlt Hstep]; [lia|].
  destruct (name_step_advances data pos s ltac:(lia)) as (p & t & E & Hadv).
  rewrite E in Hstep. injection Hstep as <- <-. lia.
Qed.

(** The body runs only at positions up to [len(data) - 5]. *)
Lemma visits_body_bound data pos s pos' s' :
  visits data pos s -> pos < len data - 4 ->
  name_step data pos s = Ok (pos', s') -> 0 <= pos <= len data - 5.
Proof. intros Hv Hlt _. apply visits_nonneg in Hv. lia. Qed.

Lemma name_scan_more_fuel fuel data :
  forall pos s r,
    name_scan fuel data pos s = Ok r -> name_scan (S fuel) data pos s = Ok r.
Proof.
  induction fuel as [|fuel IH]; intros pos s r; [discriminate|].
  intros H. simpl in H. change (name_scan (S (S fuel)) data pos s)
    with (if pos <? len data - 4
          then st <- name_step data pos s ;; name_scan (S fuel) data (fst st) (snd st)
          else Ok s).
  destruct (pos <? len data - 4); [|exact H].
  destruct (name_step data pos s) as [[pos' s']| |]; cbn [bind fst snd] in *;
    try discriminate.
  apply IH, H.
Qed.

Lemma visits_same_result data pos s :
  visits data pos s ->
  forall r, name_scan (scan_fuel data) data 0 empty_symbols = Ok r ->
            name_scan (scan_fuel data) data pos s = Ok r.
Proof.
  induction 1 as [|pos s pos' s' _ IH Hlt Hstep]; intros r Hr; [exact Hr|].
  specialize (IH r Hr). unfold scan_fuel in *.
  apply name_scan_more_fuel.
  simpl in IH. apply Z.ltb_lt in Hlt. rewrite Hlt, Hstep in IH. exact IH.
Qed.

(** Whatever the table holds when a position is tested is in the table
    [extract_symbols] returns. *)
Lemma visits_extends data pos s final :
  visits data pos s -> extract_symbols data = Ok final -> extends s final.
Proof.
  intros Hv. unfold extract_symbols.
  destruct (name_scan _ data 0 empty_symbols) as [s1| |] eqn:H1; cbn [bind];
    try discriminate.
  intros H2. eapply extends_trans.
  - eapply name_scan_extends, visits_same_result; eassumption.
  - eapply string_scan_extends, H2.
Qed.

(** ** The pattern of line 57 on printable names *)

Lemma at_dollar_drop_while (rest : Z -> bool) (s : pystr) :
  Forall (fun c => c <> 10) s ->
  at_dollar (drop_while rest s) = forallb rest s.
Proof.
  induction 1 as [|c s Hc Hs IH]; [reflexivity|].
  simpl. destruct (rest c); simpl; [exact IH|].
  destruct s; [apply Z.eqb_neq, Hc|reflexivity].
Qed.

Lemma match_variable_identifier (name : pystr) :
  Forall (fun c => 32 <= c < 127) name ->
  match_variable name = identifier name.
Proof.
  intros H. destruct name as [|c rest]; [reflexivity|].
  unfold match_variable, match_ident, identifier.
  rewrite at_dollar_drop_while; [reflexivity|].
  inversion H as [|? ? _ Hrest]; subst.
  eapply Forall_impl; [|exact Hrest]. simpl. intros; lia.
Qed.

Lemma record_name_printable data pos length :
  accepted data pos length = true ->
  Forall (fun c => 32 <= c < 127) (record_name data pos length).
Proof.
  unfold accepted, record_name. intros H.
  apply andb_true_iff in H as [_ H]. rewrite forallb_forall in H.
  apply Forall_forall. intros c Hc. apply in_map_iff in Hc as (b & <- & Hb).
  specialize (H b Hb). unfold printable in H.
  apply andb_true_iff in H as [H1 H2].
  apply Z.leb_le in H1. apply Z.ltb_lt in H2. lia.
Qed.

Lemma record_name_length data pos length :
  0 <= pos -> accepted data pos length = true ->
  len (record_name data pos length) = length.
Proof.
  unfold accepted, record_name. intros Hpos H.
  apply andb_true_iff in H as [H _].
  apply andb_true_iff in H as [H H3]. apply andb_true_iff in H as [H1 H2].
  apply Z.ltb_lt in H1, H2. apply Z.leb_le in H3.
  unfold len. rewrite length_map. fold (len (slice data (pos + 2) (pos + 2 + length))).
  rewrite slice_length; lia.
Qed.

(** ** The printability ratio *)

Lemma ratio_table_checked : ratio_table_ok = true.
Proof. vm_compute. reflexivity. Qed.

Lemma exceeds_ratio_exact (count length : Z) :
  0 <= count <= length -> length < 256 ->
  exceeds_ratio count length = (9 * length <? 10 * count).
Proof.
  intros Hc Hl. pose proof ratio_table_checked as H.
  unfold ratio_table_ok in H. rewrite forallb_forall in H.
  specialize (H (Z.to_nat length)).
  rewrite forallb_forall in H.
  specialize (H ltac:(apply in_seq; lia) (Z.to_nat count) ltac:(apply in_seq; lia)).
  apply eqb_prop in H. rewrite !Z2Nat.id in H by lia. exact H.
Qed.

Lemma count_printable_bound (bs : bytes) : 0 <= len (filter printable bs) <= len bs.
Proof.
  unfold len. pose proof (filter_length_le printable bs). lia.
Qed.

(** ** Valid records *)

Lemma accepted_iff data pos length :
  accepted data pos length = true <-> valid_record data pos length.
Proof.
  unfold accepted, valid_record.
  rewrite !andb_true_iff, forallb_forall, Z.leb_le, !Z.ltb_lt.
  split.
  - intros [[[H1 H2] H3] H4]. repeat split; try assumption;
      specialize (H4 b H); unfold printable in H4;
      apply andb_true_iff in H4 as [Ha Hb];
      apply Z.leb_le in Ha; apply Z.ltb_lt in Hb; assumption.
  - intros [[H1 H2] [H3 H4]]. repeat split; try assumption.
    intros b Hb. specialize (H4 b Hb). unfold printable.
    apply andb_true_iff. rewrite Z.leb_le, Z.ltb_lt. exact H4.
Qed.

Lemma not_accepted_iff data pos length :
  accepted data pos length = false <-> ~ valid_record data pos length.
Proof.
  rewrite <- accepted_iff. destruct (accepted data pos length); split; intros; easy.
Qed.

Lemma byte_val_inj (a b : byte) : byte_val a = byte_val b -> a = b.
Proof.
  unfold byte_val. intros H. apply N2Z.inj in H.
  pose proof (Byte.of_to_N a) as Ha. rewrite H, Byte.of_to_N in Ha.
  congruence.
Qed.

Lemma getitem_head (data : bytes) (b : byte) :
  getitem data 0 = Ok (byte_val b) <-> hd_error data = Some b.
Proof.
  destruct data as [|d data]; simpl.
  - split; discriminate.
  - rewrite getitem_in_range by (unfold len; simpl; lia). simpl. split.
    + intros [= H]. apply byte_val_inj in H. congruence.
    + intros [= ->]. reflexivity.
Qed.

(** ** The name-record scanner *)

(** C1: an accepted record (length in (0, 64), fitting in the buffer, all
    payload bytes in [0x20, 0x7F)) is consumed and its name classified by the
    flag byte: 0x40 and 0x04 put it in [subs], 0x08 puts it in [types] and
    nowhere else, and any other flag puts it in [variables] exactly when it
    has more than one character and matches the identifier pattern; a name
    is put at the end of its list unless the list holds it already. *)
Theorem classified_by_flag data pos s flags length :
  0 <= pos ->
  getitem data pos = Ok flags ->
  getitem data (pos + 1) = Ok length ->
  valid_record data pos length ->
  exists s',
    name_step data pos s = Ok (pos + 2 + length, s')
    /\ len (record_name data pos length) = length
    /\ functions s' = functions s /\ strings s' = strings s
    /\ (flags = 0x40 \/ flags = 0x04 ->
        subs s' = add_new (record_name data pos length) (subs s)
        /\ types s' = types s /\ variables s' = variables s)
    /\ (flags = 0x08 ->
        types s' = add_new (record_name data pos length) (types s)
        /\ subs s' = subs s /\ variables s' = variables s)
    /\ (flags <> 0x40 -> flags <> 0x04 -> flags <> 0x08 ->
        subs s' = subs s /\ types s' = types s
        /\ variables s'
           = if (1 <? len (record_name data pos length))
                && identifier (record_name data pos length)
             then add_new (record_name data pos length) (variables s)
             else variables s).
Proof.
  intros Hpos Hf Hl Hvalid. apply accepted_iff in Hvalid.
  eexists. split; [apply (name_step_accepted _ _ _ _ _ Hf Hl Hvalid)|].
  split; [apply record_name_length; assumption|].
  destruct (classify_fields flags (record_name data pos length) s)
    as (E2 & E5 & E1 & E3 & E4).
  rewrite E1, E2, E3, E4, E5.
  rewrite (match_variable_identifier _ (record_name_printable _ _ _ Hvalid)).
  repeat split; auto.
  - destruct H as [-> | ->]; reflexivity.
  - destruct H as [-> | ->]; reflexivity.
  - destruct H as [-> | ->]; reflexivity.
  - subst flags; reflexivity.
  - subst flags; reflexivity.
  - subst flags; reflexivity.
  - apply Z.eqb_neq in H, H0. rewrite H, H0. reflexivity.
  - apply Z.eqb_neq in H1. rewrite H1. reflexivity.
  - apply Z.eqb_neq in H, H0, H1. rewrite H, H0, H1. reflexivity.
Qed.

Lemma point_file_valid : valid_record point_file 1 6.
Proof. apply accepted_iff. reflexivity. Qed.

(** The record of [point_file]: "PointT" goes to [types], and to neither
    [subs] nor [variables]. *)
Lemma classified_by_flag_witness :
  exists s',
    name_step point_file 1 empty_symbols = Ok (9, s')
    /\ types s' = [lit "PointT"] /\ subs s' = [] /\ variables s' = [].
Proof.
  destruct (classified_by_flag point_file 1 empty_symbols 8 6
              ltac:(lia) eq_refl eq_refl point_file_valid)
    as (s' & Hstep & _ & _ & _ & _ & Htypes & _).
  destruct (Htypes eq_refl) as (Ht & Hs & Hv).
  exists s'. repeat split; assumption.
Defined.

(** On the whole of [point_file] the name is a type; the string scanner
    also keeps it as a string literal. *)
Example point_file_symbols :
  extract_symbols point_file
  = Ok (mkSymbols [] [] [lit "PointT"] [] [lit "PointT"]).
Proof. vm_compute. reflexivity. Qed.

(** C5: when the record at an offset is not accepted (its length is out of
    range, it does not fit, or its payload has a byte outside
    [0x20, 0x7F)], the iteration leaves the table as it was and moves the
    position by one byte, which is not the record's length [2 + length]. *)
Theorem rejected_advances_one data pos s flags length :
  getitem data pos = Ok flags ->
  getitem data (pos + 1) = Ok length ->
  ~ valid_record data pos length ->
  name_step data pos s = Ok (pos + 1, s) /\ pos + 1 <> pos + 2 + length.
Proof.
  intros Hf Hl Hinvalid. apply not_accepted_iff in Hinvalid.
  split; [apply (name_step_rejected _ _ _ _ _ Hf Hl Hinvalid)|].
  pose proof (getitem_value_range _ _ _ Hl). lia.
Qed.

Lemma zero_in_name_invalid : ~ valid_record zero_in_name 1 3.
Proof. apply not_accepted_iff. reflexivity. Qed.

Lemma rejected_advances_one_witness :
  name_step zero_in_name 1 empty_symbols = Ok (2, empty_symbols).
Proof.
  exact (proj1 (rejected_advances_one zero_in_name 1 empty_symbols 64 3
                  eq_refl eq_refl zero_in_name_invalid)).
Defined.

(** C10: the [@] prefix check never accepts anything, so deleting it from
    the first loop changes the result of [extract_symbols] on no buffer. *)
Theorem at_check_is_dead :
  (forall data pos s flags length,
      getitem data pos = Ok flags ->
      getitem data (pos + 1) = Ok length ->
      generic_record data pos flags length s = None ->
      at_record data pos s = Ok None)
  /\ forall data, extract_symbols data = extract_symbols_no_at data.
Proof.
  split.
  - intros data pos s flags length Hf Hl Hnone.
    destruct (accepted data pos length) eqn:Hacc.
    + rewrite (generic_record_accepted _ _ _ _ _ Hacc) in Hnone. discriminate.
    + apply (at_record_after_rejection _ _ _ _ _ Hf Hl Hacc).
  - intros data. unfold extract_symbols, extract_symbols_no_at.
    rewrite name_scan_eq_no_at. reflexivity.
Qed.

Lemma at_check_is_dead_witness :
  at_record zero_in_name 1 empty_symbols = Ok None
  /\ extract_symbols zero_in_name = extract_symbols_no_at zero_in_name.
Proof.
  split.
  - exact (proj1 at_check_is_dead zero_in_name 1 empty_symbols 64 3
             eq_refl eq_refl eq_refl).
  - exact (proj2 at_check_is_dead zero_in_name).
Defined.

(** A record accepted at a position the loop tests is in the table for
    good. *)
Lemma visited_record_kept data pos t flags length final :
  visits data pos t ->
  pos < len data - 4 ->
  getitem data pos = Ok flags ->
  getitem data (pos + 1) = Ok length ->
  valid_record data pos length ->
  extract_symbols data = Ok final ->
  extends (classify flags (record_name data pos length) t) final.
Proof.
  intros Hv Hlt Hf Hl Hvalid Hfinal. apply accepted_iff in Hvalid.
  eapply visits_extends; [|exact Hfinal].
  eapply visits_next; [exact Hv|exact Hlt|].
  apply (name_step_accepted _ _ _ _ _ Hf Hl Hvalid).
Qed.

(** C4: [extract_symbols] returns on every buffer, and none of the five lists
    of its table holds a value twice (values are compared character by
    character); a name accepted with flag 0x40 at an offset the loop tests,
    however many times, is in [subs] exactly once. *)
Theorem no_duplicate_symbols data :
  exists s,
    extract_symbols data = Ok s
    /\ NoDup (subs s) /\ NoDup (functions s) /\ NoDup (types s)
    /\ NoDup (variables s) /\ NoDup (strings s)
    /\ forall pos t length,
        visits data pos t ->
        pos < len data - 4 ->
        getitem data pos = Ok 0x40 ->
        getitem data (pos + 1) = Ok length ->
        valid_record data pos length ->
        count_occ pystr_eq_dec (subs s) (record_name data pos length) = 1%nat.
Proof.
  destruct (extract_symbols_returns data) as (s & Hs). exists s.
  destruct (extract_symbols_no_duplicates _ _ Hs) as (N1 & N2 & N3 & N4 & N5).
  repeat (split; [assumption|]).
  intros pos t length Hv Hlt Hf Hl Hvalid.
  apply NoDup_count_occ'; [exact N1|].
  destruct (visited_record_kept _ _ _ _ _ _ Hv Hlt Hf Hl Hvalid Hs) as (Hin & _).
  apply Hin.
  destruct (classify_fields 64 (record_name data pos length) t) as (_ & _ & -> & _).
  apply add_new_In.
Qed.

Lemma foo_twice_visits :
  visits foo_twice 1 empty_symbols
  /\ visits foo_twice 6 (mkSymbols [lit "FOO"] [] [] [] []).
Proof.
  assert (H1 : visits foo_twice 1 empty_symbols).
  { eapply visits_next; [apply visits_first|reflexivity|reflexivity]. }
  split; [exact H1|].
  eapply visits_next; [exact H1|reflexivity|reflexivity].
Qed.

Lemma foo_twice_valid : valid_record foo_twice 1 3 /\ valid_record foo_twice 6 3.
Proof. split; apply accepted_iff; reflexivity. Qed.

(** In [foo_twice] the record is accepted at offsets 1 and 6, and "FOO" is
    in [subs] once. *)
Lemma no_duplicate_symbols_witness :
  exists s,
    extract_symbols foo_twice = Ok s
    /\ record_name foo_twice 1 3 = lit "FOO"
    /\ record_name foo_twice 6 3 = lit "FOO"
    /\ count_occ pystr_eq_dec (subs s) (lit "FOO") = 1%nat.
Proof.
  destruct (no_duplicate_symbols foo_twice) as (s & Hs & _ & _ & _ & _ & _ & Hone).
  exists s. repeat split; try assumption.
  exact (Hone 6 _ 3 (proj2 foo_twice_visits) eq_refl eq_refl eq_refl
           (proj2 foo_twice_valid)).
Defined.

(** Case matters: "Foo" and "FOO" are two names. *)
Example case_sensitive_membership :
  mem (lit "Foo") [lit "FOO"] = false /\ mem (lit "FOO") [lit "FOO"] = true.
Proof. split; reflexivity. Qed.

(** C6, as stated, fails: in [record_at_tail] the flag byte 0x40 of the valid
    record "AB" sits at offset [len - 4], the loop tests no position but 0
    and 1 and runs its body at 0 only, and the table comes back empty. *)
Lemma tail_record_not_scanned :
  len record_at_tail - 4 = 1
  /\ getitem record_at_tail 1 = Ok 0x40
  /\ getitem record_at_tail 2 = Ok 2
  /\ valid_record record_at_tail 1 2
  /\ record_name record_at_tail 1 2 = lit "AB"
  /\ name_step record_at_tail 0 empty_symbols = Ok (1, empty_symbols)
  /\ (1 <? len record_at_tail - 4) = false
  /\ extract_symbols record_at_tail = Ok empty_symbols
  /\ ~ (exists s, extract_symbols record_at_tail = Ok s
                   /\ In (record_name record_at_tail 1 2) (subs s)).
Proof.
  do 3 (split; [reflexivity|]).
  split; [apply accepted_iff; reflexivity|].
  do 4 (split; [vm_compute; reflexivity|]).
  intros (s & Hs & Hin).
  assert (E : extract_symbols record_at_tail = Ok empty_symbols)
    by (vm_compute; reflexivity).
  rewrite E in Hs. injection Hs as <-. exact Hin.
Qed.

(** C6, amended: the body of the loop runs at offsets from 0 to [len - 5]
    only, and a valid record at an offset where it runs is extracted: its
    name is in [subs] of the returned table for the flags 0x40 and 0x04, in
    [types] for 0x08, and in [variables] for any other flag when it has more
    than one character and matches the identifier pattern. *)
Theorem visited_record_extracted data pos t flags length :
  visits data pos t ->
  pos < len data - 4 ->
  getitem data pos = Ok flags ->
  getitem data (pos + 1) = Ok length ->
  valid_record data pos length ->
  0 <= pos <= len data - 5
  /\ exists final,
      extract_symbols data = Ok final
      /\ (flags = 0x40 \/ flags = 0x04 ->
          In (record_name data pos length) (subs final))
      /\ (flags = 0x08 -> In (record_name data pos length) (types final))
      /\ (flags <> 0x40 -> flags <> 0x04 -> flags <> 0x08 ->
          1 < len (record_name data pos length) ->
          identifier (record_name data pos length) = true ->
          In (record_name data pos length) (variables final)).
Proof.
  intros Hv Hlt Hf Hl Hvalid.
  split; [pose proof (visits_nonneg _ _ _ Hv); lia|].
  destruct (extract_symbols_returns data) as (final & Hfinal). exists final.
  split; [exact Hfinal|].
  destruct (visited_record_kept _ _ _ _ _ _ Hv Hlt Hf Hl Hvalid Hfinal)
    as (Isubs & _ & Itypes & Ivars & _).
  destruct (classify_fields flags (record_name data pos length) t)
    as (_ & _ & E1 & E3 & E4).
  apply accepted_iff in Hvalid.
  rewrite (match_variable_identifier _ (record_name_printable _ _ _ Hvalid)) in E4.
  repeat split.
  - intros Hflag. apply Isubs. rewrite E1.
    destruct Hflag as [-> | ->]; apply add_new_In.
  - intros ->. apply Itypes. rewrite E3. apply add_new_In.
  - intros H40 H04 H08 Hlen Hid. apply Ivars. rewrite E4.
    apply Z.eqb_neq in H40, H04, H08. apply Z.ltb_lt in Hlen.
    rewrite H40, H04, H08, Hlen, Hid. apply add_new_In.
Qed.

(** In [foo_twice] the second record starts at offset 6, which is
    [len - 5]. *)
Lemma visited_record_extracted_witness :
  len foo_twice - 5 = 6
  /\ exists final,
      extract_symbols foo_twice = Ok final /\ In (lit "FOO") (subs final).
Proof.
  split; [reflexivity|].
  destruct (visited_record_extracted foo_twice 6 _ 64 3
              (proj2 foo_twice_visits) eq_refl eq_refl eq_refl
              (proj2 foo_twice_valid))
    as (_ & final & Hfinal & Hsubs & _).
  exists final. split; [exact Hfinal|]. apply Hsubs. left. reflexivity.
Defined.

(** An offset up to [len - 5] is not tested when it lies inside a record
    consumed before it: in [record_swallowed] the record "FOO" starts at
    offset 2 = [len - 5], the record of length 1 at offset 0 has its flag
    byte for payload, and the loop ends at offset 3. *)
Example swallowed_record_not_scanned :
  len record_swallowed - 5 = 2
  /\ accepted record_swallowed 2 3 = true
  /\ name_step record_swallowed 0 empty_symbols = Ok (3, empty_symbols)
  /\ extract_symbols record_swallowed = Ok empty_symbols.
Proof. repeat split; vm_compute; reflexivity. Qed.

(** ** The string-literal scanner *)

(** C7: a string candidate (length in (5, 200), fitting in the buffer) is
    kept only when the share of its bytes in [0x20, 0x7F) exceeds nine
    tenths strictly: with [10 * count <= 9 * length], and so when the count
    is exactly nine tenths of the length, the table is left as it was, and a
    table that changed had [10 * count > 9 * length]. *)
Theorem ratio_must_exceed data pos s length :
  0 <= pos ->
  getitem data pos = Ok length ->
  5 < length < 200 ->
  pos + 1 + length <= len data ->
  (10 * len (filter printable (slice data (pos + 1) (pos + 1 + length)))
   = 9 * length ->
   string_step data pos s = Ok s)
  /\ (10 * len (filter printable (slice data (pos + 1) (pos + 1 + length)))
      <= 9 * length ->
      string_step data pos s = Ok s)
  /\ (forall s', string_step data pos s = Ok s' -> s' <> s ->
      9 * length
      < 10 * len (filter printable (slice data (pos + 1) (pos + 1 + length)))).
Proof.
  intros Hpos Hlen Hrange Hfit.
  set (count := len (filter printable (slice data (pos + 1) (pos + 1 + length)))).
  assert (Hcount : 0 <= count <= length).
  { pose proof (count_printable_bound (slice data (pos + 1) (pos + 1 + length))) as H.
    rewrite slice_length in H by lia. replace (pos + 1 + length - (pos + 1)) with length in H by lia.
    exact H. }
  assert (Hle : 10 * count <= 9 * length -> string_step data pos s = Ok s).
  { intros Hlow. unfold string_step. rewrite Hlen. cbn [bind].
    fold count. rewrite exceeds_ratio_exact by lia.
    replace (9 * length <? 10 * count) with false by (symmetry; apply Z.ltb_ge; lia).
    destruct (_ && _); reflexivity. }
  split; [intros H; apply Hle; lia|]. split; [exact Hle|].
  intros s' Hstep Hchanged.
  destruct (Z.lt_ge_cases (9 * length) (10 * count)) as [Hlt|Hge]; [exact Hlt|].
  rewrite Hle in Hstep by lia. congruence.
Qed.

(** In [nine_tenths] nine of the ten bytes are printable and the tenth (DEL)
    is no control character: the candidate is turned down by the ratio
    alone. *)
Lemma ratio_must_exceed_witness :
  10 * len (filter printable (slice nine_tenths 1 11)) = 9 * 10
  /\ string_step nine_tenths 0 empty_symbols = Ok empty_symbols.
Proof.
  split; [reflexivity|].
  exact (proj1 (ratio_must_exceed nine_tenths 0 empty_symbols 10
                  ltac:(lia) eq_refl ltac:(lia) ltac:(vm_compute; congruence))
           eq_refl).
Defined.

(** With the tenth byte printable the same candidate is kept. *)
Example ten_tenths_kept :
  string_step ten_tenths 0 empty_symbols
  = Ok (mkSymbols [] [] [] [] [lit "ABCDEFGHIJ"]).
Proof. vm_compute. reflexivity. Qed.

(** A candidate of length 15 is kept from 14 printable bytes on and turned
    down up to 13: no count is nine tenths of 15. *)
Remark ratio_at_length_15 (count : Z) :
  0 <= count <= 15 ->
  exceeds_ratio count 15 = (14 <=? count) /\ 10 * count <> 9 * 15.
Proof.
  intros H. rewrite exceeds_ratio_exact by lia. split; [|lia].
  destruct (Z.ltb_spec (9 * 15) (10 * count)), (Z.leb_spec 14 count);
    try reflexivity; lia.
Qed.

(** ** The loader *)

(** C3: [analyze_file] on a file of fewer than 2 bytes, or whose first byte
    is not 0xFC, returns no table and the error "Not a QB45 binary format
    file"; on a file of at least 2 bytes that starts with 0xFC it returns
    the table of [extract_symbols] and no error. *)
Theorem signature_check fs filepath data :
  fs filepath = Some (File data) ->
  (len data < 2 \/ hd_error data <> Some xfc ->
   analyze_file fs filepath
   = Ok (None, Some (lit "Not a QB45 binary format file")))
  /\ (2 <= len data -> hd_error data = Some xfc ->
      exists s,
        extract_symbols data = Ok s
        /\ analyze_file fs filepath = Ok (Some s, None)).
Proof.
  intros Hfile. unfold analyze_file, read_file. rewrite Hfile. cbn [bind].
  unfold bad_signature. split.
  - intros Hbad. destruct (Z.ltb_spec (len data) 2) as [Hshort|Hlong];
      [reflexivity|].
    destruct Hbad as [Hshort|Hmagic]; [lia|].
    rewrite getitem_in_range by lia. cbn [bind].
    destruct (Z.eqb_spec (byte_val (nth (Z.to_nat 0) data x00)) 252) as [E|E];
      [|reflexivity].
    exfalso. apply Hmagic. apply getitem_head.
    rewrite getitem_in_range by lia. f_equal. exact E.
  - intros Hlong Hmagic. apply getitem_head in Hmagic.
    replace (len data <? 2) with false by (symmetry; apply Z.ltb_ge; lia).
    rewrite Hmagic. cbn [bind].
    destruct (extract_symbols_returns data) as (s & Hs). exists s.
    rewrite Hs. split; reflexivity.
Qed.

Lemma signature_check_witness :
  analyze_file (one_file (lit "SHORT.BAS") [xfc]) (lit "SHORT.BAS")
  = Ok (None, Some (lit "Not a QB45 binary format file"))
  /\ analyze_file (one_file (lit "TEXT.BAS") [x52; x45; x4d]) (lit "TEXT.BAS")
     = Ok (None, Some (lit "Not a QB45 binary format file"))
  /\ exists s,
      extract_symbols hello_file = Ok s
      /\ analyze_file (one_file (lit "HELLO.BAS") hello_file) (lit "HELLO.BAS")
         = Ok (Some s, None).
Proof.
  split; [|split].
  - apply (proj1 (signature_check (one_file (lit "SHORT.BAS") [xfc])
                    (lit "SHORT.BAS") [xfc] eq_refl)).
    left. reflexivity.
  - apply (proj1 (signature_check (one_file (lit "TEXT.BAS") [x52; x45; x4d])
                    (lit "TEXT.BAS") [x52; x45; x4d] eq_refl)).
    right. discriminate.
  - apply (proj2 (signature_check (one_file (lit "HELLO.BAS") hello_file)
                    (lit "HELLO.BAS") hello_file eq_refl)).
    + vm_compute. congruence.
    + reflexivity.
Defined.

(** ** The reporter *)

Lemma str_leb_total a : forall b, str_leb a b = false -> str_leb b a = true.
Proof.
  induction a as [|x a IH]; intros [|y b]; simpl; try easy.
  destruct (Z.ltb_spec x y), (Z.ltb_spec y x); try easy; try lia.
  apply IH.
Qed.

Lemma str_leb_trans a : forall b c,
  str_leb a b = true -> str_leb b c = true -> str_leb a c = true.
Proof.
  induction a as [|x a IH]; intros [|y b] [|z c]; simpl; try easy.
  destruct (Z.ltb_spec x y), (Z.ltb_spec y x), (Z.ltb_spec y z),
    (Z.ltb_spec z y), (Z.ltb_spec x z), (Z.ltb_spec z x);
    try easy; try lia.
  apply IH.
Qed.

Lemma insert_sorted_perm x l : Permutation (insert_sorted x l) (x :: l).
Proof.
  induction l as [|y l IH]; simpl; [reflexivity|].
  destruct (str_leb x y); [reflexivity|].
  rewrite IH. apply perm_swap.
Qed.

Lemma insert_sorted_ordered x l :
  StronglySorted str_le l -> StronglySorted str_le (insert_sorted x l).
Proof.
  induction 1 as [|y l Hl IH Hy]; simpl; [repeat constructor|].
  destruct (str_leb x y) eqn:Hxy.
  - constructor; [constructor; assumption|].
    constructor; [exact Hxy|].
    eapply Forall_impl; [|exact Hy]. intros z Hz.
    eapply str_leb_trans; eassumption.
  - constructor; [exact IH|].
    eapply Permutation_Forall; [symmetry; apply insert_sorted_perm|].
    constructor; [apply str_leb_total, Hxy|exact Hy].
Qed.

(** [sorted] arranges the values of its argument in ascending order. *)
Lemma sorted_ordered l : StronglySorted str_le (sorted l) /\ Permutation (sorted l) l.
Proof.
  induction l as [|x l [IH1 IH2]]; simpl; [split; constructor|].
  split; [apply insert_sorted_ordered, IH1|].
  rewrite insert_sorted_perm. constructor. exact IH2.
Qed.

(** C9: the names of [subs], [types] and [variables] are printed in
    ascending order; the strings are not sorted: those longer than 10
    characters are taken in the order of the table, the first 10 of them are
    printed, each between quotes, cut to its first 50 characters and followed
    by an ellipsis when it is longer than 50. *)
Theorem strings_keep_table_order s :
  (forall l, StronglySorted str_le (sorted l) /\ Permutation (sorted l) l)
  /\ (subs s <> [] ->
      exists header, report_subs s = header :: List.map indent (sorted (subs s)))
  /\ (types s <> [] ->
      exists header, report_types s = header :: List.map indent (sorted (types s)))
  /\ (filter (fun v => 3 <? len v) (variables s) <> [] ->
      exists header more,
        report_variables s
        = header
            :: List.map indent
                 (firstn 30 (sorted (filter (fun v => 3 <? len v) (variables s))))
            ++ more)
  /\ (firstn 10 (filter (fun str => 10 <? len str) (strings s)) <> [] ->
      report_strings s
      = lit "  String literals (sample):"
          :: List.map show_string
               (firstn 10 (filter (fun str => 10 <? len str) (strings s))))
  /\ (firstn 10 (filter (fun str => 10 <? len str) (strings s)) = [] ->
      report_strings s = [])
  /\ (forall str, len str <= 50 ->
                  show_string str = lit "    " ++ quote ++ str ++ quote)
  /\ (forall str, 50 < len str ->
                  show_string str
                  = lit "    " ++ quote ++ firstn 50 str ++ lit "..." ++ quote).
Proof.
  split; [apply sorted_ordered|].
  split; [|split; [|split; [|split; [|split; [|split]]]]].
  - unfold report_subs. destruct (subs s); [easy|]. intros _. eexists. reflexivity.
  - unfold report_types. destruct (types s); [easy|]. intros _. eexists. reflexivity.
  - unfold report_variables. destruct (variables s) as [|v vs]; [easy|].
    cbv zeta. destruct (filter (fun w => 3 <? len w) (v :: vs)); [easy|].
    intros _. eexists _, _. reflexivity.
  - unfold report_strings. destruct (strings s) as [|x xs]; [easy|].
    cbv zeta. destruct (firstn 10 (filter (fun str => 10 <? len str) (x :: xs)));
      [easy|]. reflexivity.
  - unfold report_strings. destruct (strings s) as [|x xs]; [easy|].
    intros ->. reflexivity.
  - intros str Hlen. unfold show_string.
    replace (50 <? len str) with false by (symmetry; apply Z.ltb_ge; lia).
    rewrite firstn_all2 by (unfold len in Hlen; lia). reflexivity.
  - intros str Hlen. unfold show_string.
    replace (50 <? len str) with true by (symmetry; apply Z.ltb_lt; lia).
    reflexivity.
Qed.

(** The subs of [descending] come out as ABE, ZED; its strings as they stand
    in the table, without the one of 5 characters. *)
Lemma strings_keep_table_order_witness :
  report_subs descending
  = [lit "  SUBs/FUNCTIONs (2):"; lit "    ABE"; lit "    ZED"]
  /\ report_strings descending
     = [lit "  String literals (sample):";
        lit "    " ++ quote ++ lit "zebra crossing" ++ quote;
        lit "    " ++ quote ++ lit "apple orchard" ++ quote].
Proof.
  destruct (strings_keep_table_order descending)
    as (_ & Hsubs & _ & _ & Hstrings & _).
  split.
  - destruct (Hsubs ltac:(discriminate)) as (header & _). reflexivity.
  - rewrite Hstrings by discriminate. reflexivity.
Defined.

(** ** [main] *)

(** C2: on the file [b'\xFC\x40\x05HELLO'] the program prints the header of
    the file, the section "SUBs/FUNCTIONs (1):" with the name HELLO and the
    closing empty line, and nothing else: no section of types, variables or
    strings. *)
Theorem hello_report fs prog filepath :
  fs filepath = Some (File hello_file) ->
  main fs [prog; filepath]
  = ([Stdout (lit "=== " ++ basename filepath ++ lit " ===");
      Stdout (lit "  SUBs/FUNCTIONs (1):");
      Stdout (lit "    HELLO");
      Stdout []],
     Ok tt).
Proof.
  intros Hfile. unfold main. change (len [prog; filepath] <? 2) with false.
  cbn [tl for_each]. unfold main_file, path_exists, analyze_file, read_file.
  rewrite Hfile. vm_compute. reflexivity.
Qed.

Lemma hello_report_witness :
  main (one_file (lit "HELLO.BAS") hello_file)
       [lit "qb45_symbols.py"; lit "HELLO.BAS"]
  = ([Stdout (lit "=== HELLO.BAS ===");
      Stdout (lit "  SUBs/FUNCTIONs (1):");
      Stdout (lit "    HELLO");
      Stdout []],
     Ok tt).
Proof.
  exact (hello_report (one_file (lit "HELLO.BAS") hello_file)
           (lit "qb45_symbols.py") (lit "HELLO.BAS") eq_refl).
Defined.

(** *** Batches *)

Lemma analyze_file_cases fs filepath data :
  fs filepath = Some (File data) ->
  analyze_file fs filepath = Ok (None, Some not_qb45)
  \/ exists s, analyze_file fs filepath = Ok (Some s, None).
Proof.
  intros Hfile. unfold analyze_file, read_file. rewrite Hfile. cbn [bind].
  unfold bad_signature. destruct (Z.ltb_spec (len data) 2) as [Hshort|Hlong].
  - left. reflexivity.
  - rewrite getitem_in_range by lia. cbn [bind].
    destruct (negb _); [left; reflexivity|].
    destruct (extract_symbols_returns data) as (s & ->). right. exists s. reflexivity.
Qed.

(** A path that is missing or names a file is dealt with to the end: the
    body of the loop returns. *)
Lemma main_file_returns fs filepath :
  fs filepath <> Some Directory -> snd (main_file fs filepath) = Ok tt.
Proof.
  intros Hnode. unfold main_file, path_exists.
  destruct (fs filepath) as [[data|]|] eqn:Hfile; [|easy|reflexivity].
  cbn [negb]. destruct (analyze_file_cases _ _ _ Hfile) as [->|(s & ->)];
    reflexivity.
Qed.



(** C8 at a directory: [os.path.exists] holds for it, [open] raises
    [IsADirectoryError], nothing catches it, and the file that follows in the
    batch is never read; a missing path in the same place is reported and the
    file is processed. *)
Theorem directory_ends_batch :
  path_exists folder_and_file (lit "SAVES.BAS") = true
  /\ main folder_and_file
          [lit "qb45_symbols.py"; lit "SAVES.BAS"; lit "HELLO.BAS"]
     = ([Stdout (lit "=== SAVES.BAS ===")], Raise IsADirectoryError)
  /\ main folder_and_file
          [lit "qb45_symbols.py"; lit "GONE.BAS"; lit "HELLO.BAS"]
     = ([Stderr (lit "File not found: GONE.BAS");
         Stdout (lit "=== HELLO.BAS ===");
         Stdout (lit "  SUBs/FUNCTIONs (1):");
         Stdout (lit "    HELLO");
         Stdout []],
        Ok tt).
Proof. repeat split; vm_compute; reflexivity. Qed.

(** * Further properties of the scanners *)

(** ** Fuel *)

Lemma string_scan_more_fuel fuel data :
  forall pos s r,
    string_scan fuel data pos s = Ok r -> string_scan (S fuel) data pos s = Ok r.
Proof.
  induction fuel as [|fuel IH]; intros pos s r; [discriminate|].
  intros H. simpl in H. change (string_scan (S (S fuel)) data pos s)
    with (if pos <? len data - 5
          then s' <- string_step data pos s ;; string_scan (S fuel) data (pos + 1) s'
          else Ok s).
  destruct (pos <? len data - 5); [|exact H].
  destruct (string_step data pos s) as [s'| |]; cbn [bind] in *;
    try discriminate.
  apply IH, H.
Qed.

Lemma name_scan_fuel_le data pos s r fuel fuel' :
  (fuel <= fuel')%nat ->
  name_scan fuel data pos s = Ok r -> name_scan fuel' data pos s = Ok r.
Proof.
  induction 1 as [|m _ IH]; [easy|].
  intros H. apply name_scan_more_fuel, IH, H.
Qed.

Lemma string_scan_fuel_le data pos s r fuel fuel' :
  (fuel <= fuel')%nat ->
  string_scan fuel data pos s = Ok r -> string_scan fuel' data pos s = Ok r.
Proof.
  induction 1 as [|m _ IH]; [easy|].
  intros H. apply string_scan_more_fuel, IH, H.
Qed.

(** X1: on every buffer both loops end and no subscript is out of range:
    [extract_symbols] returns a table, and the table is the same with any
    larger bound on the number of loop tests. *)
Theorem scan_never_fails data fuel :
  (scan_fuel data <= fuel)%nat ->
  exists s,
    extract_symbols data = Ok s
    /\ (s1 <- name_scan fuel data 0 empty_symbols ;; string_scan fuel data 0 s1)
       = Ok s.
Proof.
  intros Hfuel. destruct (extract_symbols_returns data) as (s & Hs).
  exists s. split; [exact Hs|]. unfold extract_symbols in Hs.
  destruct (name_scan (scan_fuel data) data 0 empty_symbols) as [s1| |] eqn:H1;
    cbn [bind] in Hs; try discriminate.
  rewrite (name_scan_fuel_le _ _ _ _ _ _ Hfuel H1). cbn [bind].
  apply (string_scan_fuel_le _ _ _ _ _ _ Hfuel Hs).
Qed.

Lemma scan_never_fails_witness :
  exists s,
    extract_symbols foo_twice = Ok s
    /\ (s1 <- name_scan 1000 foo_twice 0 empty_symbols ;;
        string_scan 1000 foo_twice 0 s1) = Ok s.
Proof.
  apply (scan_never_fails foo_twice 1000). vm_compute. lia.
Defined.

(** ** The two loops do not interfere *)

Lemma string_step_frame data pos s s' :
  string_step data pos s = Ok s' ->
  s' = with_strings s (strings s')
  /\ forall t, strings t = strings s ->
               string_step data pos t = Ok (with_strings t (strings s')).
Proof.
  unfold string_step. destruct s as [a b c d e].
  destruct (getitem data pos) as [length| |]; cbn [bind]; try discriminate.
  assert (Hsame : forall t, strings t = e -> Ok t = Ok (with_strings t e)).
  { intros [a' b' c' d' e'] He. simpl in He. subst. reflexivity. }
  destruct (_ && _);
    [|intros [= <-]; split; [reflexivity|intros t Ht; apply Hsame, Ht]].
  destruct (exceeds_ratio _ _);
    [|intros [= <-]; split; [reflexivity|intros t Ht; apply Hsame, Ht]].
  cbn [strings].
  destruct (search_letters _); cbn [andb];
    [|intros [= <-]; split; [reflexivity|intros t Ht; apply Hsame, Ht]].
  destruct (mem _ e) eqn:Hm; cbn [negb].
  { intros [= <-]. split; [reflexivity|]. intros t Ht. rewrite Ht, Hm.
    apply Hsame, Ht. }
  destruct (search_control _) eqn:Hc; cbn [negb]; intros [= <-].
  - split; [reflexivity|]. intros t Ht. rewrite Ht, Hm. cbn [negb].
    apply Hsame, Ht.
  - split; [reflexivity|]. intros t Ht. rewrite Ht, Hm. cbn [negb].
    unfold append_strings, with_strings. cbn [strings]. rewrite Ht. reflexivity.
Qed.

Lemma string_scan_frame fuel data :
  forall pos s r,
    string_scan fuel data pos s = Ok r ->
    r = with_strings s (strings r)
    /\ forall t, strings t = strings s ->
                 string_scan fuel data pos t = Ok (with_strings t (strings r)).
Proof.
  induction fuel as [|fuel IH]; intros pos s r; simpl; [discriminate|].
  destruct (pos <? len data - 5).
  - destruct (string_step data pos s) as [s'| |] eqn:Hstep; cbn [bind];
      try discriminate.
    intros Hr. destruct (string_step_frame _ _ _ _ Hstep) as (Es' & Hframe).
    destruct (IH _ _ _ Hr) as (Er & Hrest). split.
    + rewrite Er at 1. rewrite Es'. reflexivity.
    + intros t Ht. rewrite (Hframe t Ht). cbn [bind].
      assert (Hmid : strings (with_strings t (strings s')) = strings s')
        by reflexivity.
      rewrite (Hrest _ Hmid). reflexivity.
  - intros [= <-]. split; [destruct s; reflexivity|].
    intros [a b c d e] Ht. simpl in Ht. subst. reflexivity.
Qed.

Lemma name_step_leaves_strings data pos s pos' s' :
  name_step data pos s = Ok (pos', s') ->
  strings s' = strings s /\ functions s' = functions s.
Proof.
  intros H. apply name_step_cases in H as [[_ ->]|(f & l & _ & _ & _ & _ & ->)];
    [auto|].
  destruct (classify_fields f (record_name data pos l) s) as (E2 & E5 & _).
  auto.
Qed.

Lemma name_scan_leaves_strings data fuel pos s r :
  name_scan fuel data pos s = Ok r ->
  strings r = strings s /\ functions r = functions s.
Proof.
  intros H.
  apply (name_scan_keeps data
           (fun t => strings t = strings s /\ functions t = functions s))
    with (fuel := fuel) (pos := pos) (s := s); auto.
  intros p t p' t' Hstep [E1 E2].
  destruct (name_step_leaves_strings _ _ _ _ _ Hstep) as [F1 F2].
  split; congruence.
Qed.

(** The table of [extract_symbols], taken apart: the names of the first loop
    and the strings of the second, each run from the empty table. *)
Lemma extract_symbols_parts data s :
  extract_symbols data = Ok s ->
  exists s1 s2,
    name_scan (scan_fuel data) data 0 empty_symbols = Ok s1
    /\ string_scan (scan_fuel data) data 0 empty_symbols = Ok s2
    /\ strings s1 = [] /\ functions s1 = []
    /\ subs s2 = [] /\ functions s2 = [] /\ types s2 = [] /\ variables s2 = []
    /\ s = mkSymbols (subs s1) [] (types s1) (variables s1) (strings s2).
Proof.
  unfold extract_symbols.
  destruct (name_scan (scan_fuel data) data 0 empty_symbols) as [s1| |] eqn:H1;
    cbn [bind]; try discriminate.
  intros H2. destruct (name_scan_leaves_strings _ _ _ _ _ H1) as [E5 E2].
  destruct (string_scan_frame _ _ _ _ _ H2) as (Es & Hframe).
  exists s1, (with_strings empty_symbols (strings s)).
  split; [reflexivity|]. split; [apply Hframe; rewrite E5; reflexivity|].
  repeat (split; [assumption || reflexivity|]).
  rewrite Es at 1. unfold with_strings. rewrite E2. reflexivity.
Qed.

(** X2: the two loops do not interfere: the table of [extract_symbols] has
    the subs, types and variables the first loop finds on its own and the
    strings the second loop finds on its own; the first loop adds no string
    and the second no name. *)
Theorem scanners_are_independent data :
  exists s1 s2,
    name_scan (scan_fuel data) data 0 empty_symbols = Ok s1
    /\ string_scan (scan_fuel data) data 0 empty_symbols = Ok s2
    /\ strings s1 = []
    /\ subs s2 = [] /\ types s2 = [] /\ variables s2 = []
    /\ extract_symbols data
       = Ok (mkSymbols (subs s1) [] (types s1) (variables s1) (strings s2)).
Proof.
  destruct (extract_symbols_returns data) as (s & Hs).
  destruct (extract_symbols_parts _ _ Hs)
    as (s1 & s2 & H1 & H2 & E1 & _ & E2 & _ & E3 & E4 & ->).
  exists s1, s2. repeat (split; [assumption|]). exact Hs.
Qed.

(** X3: the list [functions] of the table is never filled: it is empty on
    every buffer. *)
Theorem functions_stay_empty data :
  exists s, extract_symbols data = Ok s /\ functions s = [].
Proof.
  destruct (extract_symbols_returns data) as (s & Hs). exists s.
  split; [exact Hs|].
  destruct (extract_symbols_parts _ _ Hs) as (s1 & s2 & _ & _ & _ & _ & _ & _ & _ & _ & ->).
  reflexivity.
Qed.

(** ** What the lists can hold *)

Section InvariantFrom.
Variable data : bytes.
Variable P : symbols -> Prop.

(** As [name_scan_keeps], for a property kept at the positions the loop can
    reach. *)
Lemma name_scan_keeps_from :
  (forall pos s pos' s',
      0 <= pos < len data - 4 ->
      name_step data pos s = Ok (pos', s') -> P s -> P s') ->
  forall fuel pos s r,
    0 <= pos -> name_scan fuel data pos s = Ok r -> P s -> P r.
Proof.
  intros Hstep. induction fuel as [|fuel IH]; intros pos s r Hpos; simpl;
    [discriminate|].
  destruct (Z.ltb_spec pos (len data - 4)) as [Hlt|Hge]; [|intros [= <-]; auto].
  destruct (name_step_advances data pos s ltac:(lia)) as (pos' & s' & Hs & Hadv).
  rewrite Hs. cbn [bind fst snd]. intros Hr Hp.
  apply (IH pos' s' r); [lia|exact Hr|].
  apply (Hstep pos s pos' s'); [lia|exact Hs|exact Hp].
Qed.

Lemma string_scan_keeps_from :
  (forall pos s s',
      0 <= pos < len data - 5 ->
      string_step data pos s = Ok s' -> P s -> P s') ->
  forall fuel pos s r,
    0 <= pos -> string_scan fuel data pos s = Ok r -> P s -> P r.
Proof.
  intros Hstep. induction fuel as [|fuel IH]; intros pos s r Hpos; simpl;
    [discriminate|].
  destruct (Z.ltb_spec pos (len data - 5)) as [Hlt|Hge]; [|intros [= <-]; auto].
  destruct (string_step data pos s) as [s'| |] eqn:Hs; cbn [bind];
    try discriminate.
  intros Hr Hp. apply (IH (pos + 1) s' r); [lia|exact Hr|].
  apply (Hstep pos s s'); [lia|exact Hs|exact Hp].
Qed.
End InvariantFrom.

(** What line 97 appends, with the tests it has passed. *)
Lemma string_step_appends data pos s s' :
  string_step data pos s = Ok s' ->
  s' = s
  \/ exists length,
      getitem data pos = Ok length
      /\ 5 < length < 200 /\ pos + 1 + length <= len data
      /\ exceeds_ratio
           (len (filter printable (slice data (pos + 1) (pos + 1 + length))))
           length = true
      /\ search_letters
           (decode_ascii_replace (slice data (pos + 1) (pos + 1 + length))) = true
      /\ search_control
           (decode_ascii_replace (slice data (pos + 1) (pos + 1 + length))) = false
      /\ s' = append_strings
                (decode_ascii_replace (slice data (pos + 1) (pos + 1 + length))) s.
Proof.
  unfold string_step.
  destruct (getitem data pos) as [length| |]; cbn [bind]; try discriminate.
  destruct ((5 <? length) && (length <? 200) && (pos + 1 + length <=? len data))
    eqn:Hrange; [|intros [= <-]; auto].
  destruct (exceeds_ratio _ _) eqn:Hratio; [|intros [= <-]; auto].
  destruct (search_letters _) eqn:Hletters; cbn [andb]; [|intros [= <-]; auto].
  destruct (mem _ (strings s)); cbn [negb]; [intros [= <-]; auto|].
  destruct (search_control _) eqn:Hcontrol; cbn [negb]; intros [= <-]; auto.
  right. exists length.
  apply andb_true_iff in Hrange as [Hrange H3].
  apply andb_true_iff in Hrange as [H1 H2].
  apply Z.ltb_lt in H1, H2. apply Z.leb_le in H3.
  repeat split; auto.
Qed.

Lemma decode_ascii_replace_length (bs : bytes) :
  len (decode_ascii_replace bs) = len bs.
Proof. unfold decode_ascii_replace, len. rewrite length_map. reflexivity. Qed.

(** The printable characters of the decoded string are the printable bytes. *)
Lemma decode_ascii_replace_printable (bs : bytes) :
  len (filter printable_char (decode_ascii_replace bs))
  = len (filter printable bs).
Proof.
  unfold len. f_equal. induction bs as [|b bs IH]; [reflexivity|].
  simpl. pose proof (byte_val_range b) as Hb.
  assert (E : printable_char (if byte_val b <? 128 then byte_val b else 65533)
              = printable b).
  { unfold printable_char, printable.
    destruct (Z.ltb_spec (byte_val b) 128) as [Hlt|Hge]; [reflexivity|].
    symmetry. apply andb_false_iff. right. apply Z.ltb_ge. lia. }
  rewrite E. destruct (printable b); simpl; rewrite IH; reflexivity.
Qed.

Lemma decode_ascii_replace_chars (bs : bytes) :
  Forall (fun c => 0 <= c < 128 \/ c = 0xFFFD) (decode_ascii_replace bs).
Proof.
  unfold decode_ascii_replace. apply Forall_forall. intros c Hc.
  apply in_map_iff in Hc as (b & <- & _). pose proof (byte_val_range b).
  destruct (Z.ltb_spec (byte_val b) 128); [left; lia|right; reflexivity].
Qed.

Lemma string_step_text_like data pos s s' :
  0 <= pos ->
  string_step data pos s = Ok s' ->
  Forall text_like (strings s) -> Forall text_like (strings s').
Proof.
  intros Hpos Hstep Hall.
  apply string_step_appends in Hstep
    as [->|(length & Hl & Hrange & Hfit & Hratio & Hletters & Hcontrol & ->)];
    [exact Hall|].
  simpl. apply Forall_app. split; [exact Hall|]. constructor; [|constructor].
  set (bs := slice data (pos + 1) (pos + 1 + length)) in *.
  assert (Hlen : len bs = length).
  { unfold bs. rewrite slice_length; lia. }
  unfold text_like.
  rewrite decode_ascii_replace_length, decode_ascii_replace_printable, Hlen.
  repeat split; try lia; try assumption.
  - apply decode_ascii_replace_chars.
  - pose proof (count_printable_bound bs) as Hc. rewrite Hlen in Hc.
    rewrite exceeds_ratio_exact in Hratio by lia.
    apply Z.ltb_lt in Hratio. exact Hratio.
Qed.

Lemma add_new_Forall (Q : pystr -> Prop) x xs :
  Q x -> Forall Q xs -> Forall Q (add_new x xs).
Proof.
  intros Hx Hxs. unfold add_new. destruct (mem x xs); [exact Hxs|].
  apply Forall_app. split; [exact Hxs|]. constructor; [exact Hx|constructor].
Qed.

Lemma name_step_well_formed data pos s pos' s' :
  0 <= pos ->
  name_step data pos s = Ok (pos', s') ->
  names_well_formed s -> names_well_formed s'.
Proof.
  intros Hpos Hstep (W1 & W3 & W4).
  apply name_step_cases in Hstep
    as [[_ ->]|(flags & length & _ & _ & Hacc & _ & ->)];
    [repeat split; assumption|].
  set (name := record_name data pos length).
  assert (Hname : name_like name).
  { split; [|apply record_name_printable, Hacc].
    unfold name. rewrite record_name_length by assumption.
    apply accepted_iff in Hacc as ((? & ?) & _). lia. }
  destruct (classify_fields flags name s) as (_ & _ & E1 & E3 & E4).
  fold name in E4.
  rewrite (match_variable_identifier name (record_name_printable _ _ _ Hacc)) in E4.
  unfold names_well_formed. rewrite E1, E3, E4.
  split; [|split].
  - destruct ((flags =? 64) || (flags =? 4));
      [apply add_new_Forall|]; assumption.
  - destruct (flags =? 8); [apply add_new_Forall|]; assumption.
  - destruct ((flags =? 64) || (flags =? 8) || (flags =? 4)); [assumption|].
    destruct (1 <? len name) eqn:Hlen; cbn [andb]; [|assumption].
    destruct (identifier name) eqn:Hid; [|assumption].
    apply add_new_Forall; [|assumption].
    apply Z.ltb_lt in Hlen. auto.
Qed.

Lemma name_scan_well_formed data s1 :
  name_scan (scan_fuel data) data 0 empty_symbols = Ok s1 ->
  names_well_formed s1.
Proof.
  intros H1.
  apply (name_scan_keeps_from data names_well_formed)
    with (fuel := scan_fuel data) (pos := 0) (s := empty_symbols);
    [|lia|exact H1|repeat split; constructor].
  intros pos s pos' s' Hpos Hstep Hs.
  apply (name_step_well_formed data pos s pos' s'); [lia|exact Hstep|exact Hs].
Qed.

Lemma string_scan_text_like data s2 :
  string_scan (scan_fuel data) data 0 empty_symbols = Ok s2 ->
  Forall text_like (strings s2).
Proof.
  intros H2.
  apply (string_scan_keeps_from data (fun s => Forall text_like (strings s)))
    with (fuel := scan_fuel data) (pos := 0) (s := empty_symbols);
    [|lia|exact H2|constructor].
  intros pos s s' Hpos Hstep Hs.
  apply (string_step_text_like data pos s s'); [lia|exact Hstep|exact Hs].
Qed.

(** X4: every name of the table is a record's payload: it has between 1 and
    63 characters, all in [0x20, 0x7F); a name of [variables] moreover has
    at least 2 characters and is an identifier (a letter or underscore, then
    letters, digits and the characters [_$.%&#!]). *)
Theorem names_are_printable data :
  exists s,
    extract_symbols data = Ok s
    /\ (forall name,
           In name (subs s) \/ In name (types s) \/ In name (variables s) ->
           0 < len name < 64 /\ Forall (fun c => 0x20 <= c < 0x7F) name)
    /\ (forall v, In v (variables s) -> 1 < len v /\ identifier v = true).
Proof.
  destruct (extract_symbols_returns data) as (s & Hs). exists s.
  split; [exact Hs|].
  destruct (extract_symbols_parts _ _ Hs)
    as (s1 & s2 & H1 & _ & _ & _ & _ & _ & _ & _ & ->).
  destruct (name_scan_well_formed _ _ H1) as (W1 & W3 & W4).
  rewrite Forall_forall in W1, W3, W4. cbn [subs types variables]. split.
  - intros name [Hin|[Hin|Hin]].
    + apply W1, Hin.
    + apply W3, Hin.
    + apply W4, Hin.
  - intros v Hin. apply W4, Hin.
Qed.

(** X5: every string of the table has between 6 and 199 characters, each an
    ASCII character or U+FFFD, holds two letters in a row and no control
    character, and more than nine tenths of its characters are in
    [0x20, 0x7F). *)
Theorem strings_look_like_text data :
  exists s,
    extract_symbols data = Ok s
    /\ forall str,
        In str (strings s) ->
        5 < len str < 200
        /\ search_letters str = true
        /\ search_control str = false
        /\ Forall (fun c => 0 <= c < 128 \/ c = 0xFFFD) str
        /\ 9 * len str < 10 * len (filter printable_char str).
Proof.
  destruct (extract_symbols_returns data) as (s & Hs). exists s.
  split; [exact Hs|].
  destruct (extract_symbols_parts _ _ Hs)
    as (s1 & s2 & _ & H2 & _ & _ & _ & _ & _ & _ & ->).
  pose proof (string_scan_text_like _ _ H2) as Hall.
  rewrite Forall_forall in Hall. intros str Hin. apply (Hall str Hin).
Qed.

Lemma short_buffer_no_string data s2 :
  len data <= 6 ->
  string_scan (scan_fuel data) data 0 empty_symbols = Ok s2 ->
  strings s2 = [].
Proof.
  intros Hshort H2.
  apply (string_scan_keeps_from data (fun s => strings s = []))
    with (fuel := scan_fuel data) (pos := 0) (s := empty_symbols);
    [|lia|exact H2|reflexivity].
  intros pos s s' Hpos Hstep Hs.
  apply string_step_appends in Hstep as [->|(length & _ & Hr & Hfit & _)];
    [exact Hs|lia].
Qed.

(** X6: a buffer of at most 4 bytes gives the empty table, and a buffer of
    at most 6 bytes gives no string: the first loop needs 5 bytes to run
    once, and a string candidate needs 7. *)
Theorem short_buffers_give_little data :
  (len data <= 4 -> extract_symbols data = Ok empty_symbols)
  /\ (len data <= 6 ->
      exists s, extract_symbols data = Ok s /\ strings s = []).
Proof.
  split.
  - intros Hshort. unfold extract_symbols, scan_fuel. simpl.
    replace (0 <? len data - 4) with false by (symmetry; apply Z.ltb_ge; lia).
    cbn [bind].
    replace (0 <? len data - 5) with false by (symmetry; apply Z.ltb_ge; lia).
    reflexivity.
  - intros Hshort. destruct (extract_symbols_returns data) as (s & Hs).
    exists s. split; [exact Hs|].
    destruct (extract_symbols_parts _ _ Hs)
      as (s1 & s2 & _ & H2 & _ & _ & _ & _ & _ & _ & ->).
    apply (short_buffer_no_string _ _ Hshort H2).
Qed.

Lemma short_buffers_give_little_witness :
  extract_symbols [xfc; x40; x01; x41] = Ok empty_symbols
  /\ exists s, extract_symbols five_bytes = Ok s /\ strings s = [].
Proof.
  split.
  - apply (proj1 (short_buffers_give_little [xfc; x40; x01; x41])).
    vm_compute. congruence.
  - apply (proj2 (short_buffers_give_little five_bytes)).
    vm_compute. congruence.
Defined.

(** The bounds of X6 are the best: five bytes can hold a name and seven a
    string. *)
Example short_buffers_bounds_are_tight :
  extract_symbols five_bytes = Ok (mkSymbols [lit "A"] [] [] [] [])
  /\ extract_symbols seven_bytes = Ok (mkSymbols [] [] [] [] [lit "ABCDEF"]).
Proof. split; vm_compute; reflexivity. Qed.

(** X7: where the body of the first loop runs it never fails, and it moves
    the position forward by at least 1 and at most 65 bytes, never past the
    end of the buffer. *)
Theorem name_step_moves_forward data pos s :
  0 <= pos < len data - 4 ->
  exists pos' s',
    name_step data pos s = Ok (pos', s')
    /\ pos < pos' <= pos + 65 /\ pos' <= len data.
Proof.
  intros Hpos.
  destruct (name_step_advances data pos s Hpos) as (pos' & s' & Hstep & Hadv).
  exists pos', s'. split; [exact Hstep|].
  apply name_step_cases in Hstep
    as [[-> _]|(flags & length & _ & _ & Hacc & -> & _)]; [lia|].
  apply accepted_iff in Hacc as ((? & ?) & ? & _). lia.
Qed.

Lemma name_step_moves_forward_witness :
  exists pos' s',
    name_step foo_twice 1 empty_symbols = Ok (pos', s')
    /\ 1 < pos' <= 1 + 65 /\ pos' <= len foo_twice.
Proof.
  apply (name_step_moves_forward foo_twice 1 empty_symbols).
  vm_compute. split; congruence.
Defined.

(** X8: the binary64 test [printable_count > length * 0.9] of line 90 is
    exact: for every length a byte can hold and every count up to it, it
    holds exactly when [10 * printable_count > 9 * length]; rounding never
    changes the outcome. *)
Theorem ratio_test_is_exact count length :
  0 <= count <= length -> length < 256 ->
  exceeds_ratio count length = (9 * length <? 10 * count).
Proof. intros Hc Hl. apply exceeds_ratio_exact; assumption. Qed.

Lemma ratio_test_is_exact_witness :
  exceeds_ratio 18 20 = (9 * 20 <? 10 * 18).
Proof. apply (ratio_test_is_exact 18 20); lia. Defined.

(** * Further properties of [main] and the reporter *)

Lemma header_literal filepath :
  fst (print (lit "=== " ++ basename filepath ++ lit " ==="))
  = [Stdout (lit "=== " ++ basename filepath ++ lit " ===")].
Proof. reflexivity. Qed.


Lemma main_file_directory fs filepath :
  fs filepath = Some Directory ->
  main_file fs filepath
  = ([Stdout (lit "=== " ++ basename filepath ++ lit " ===")],
     Raise IsADirectoryError).
Proof.
  intros Hdir. unfold main_file, path_exists, analyze_file, read_file.
  rewrite Hdir. reflexivity.
Qed.

Lemma bad_signature_true data :
  len data < 2 \/ hd_error data <> Some xfc -> bad_signature data = Ok true.
Proof.
  intros Hbad. unfold bad_signature.
  destruct (Z.ltb_spec (len data) 2) as [Hshort|Hlong]; [reflexivity|].
  destruct Hbad as [Hshort|Hmagic]; [lia|].
  rewrite getitem_in_range by lia. cbn [bind].
  destruct (Z.eqb_spec (byte_val (nth (Z.to_nat 0) data x00)) 252) as [E|E];
    [|reflexivity].
  exfalso. apply Hmagic. apply getitem_head.
  rewrite getitem_in_range by lia. f_equal. exact E.
Qed.




Lemma for_each_stops (body : pystr -> io unit) before d after out e :
  (forall p, In p before -> snd (body p) = Ok tt) ->
  body d = (out, Raise e) ->
  for_each body (before ++ d :: after)
  = (flat_map (fun p => fst (body p)) before ++ out, Raise e).
Proof.
  intros Hbefore Hd. induction before as [|p before IH]; simpl.
  - rewrite Hd. reflexivity.
  - pose proof (Hbefore p (or_introl eq_refl)) as Hp.
    destruct (body p) as [outp [[]| |]] eqn:Hbody; try discriminate.
    unfold io_bind. rewrite IH by (intros q Hq; apply Hbefore; right; exact Hq).
    cbn [fst]. rewrite app_assoc. reflexivity.
Qed.


Lemma main_with_arguments fs prog p paths :
  main fs (prog :: p :: paths) = for_each (main_file fs) (p :: paths).
Proof.
  unfold main.
  replace (len (prog :: p :: paths) <? 2) with false; [reflexivity|].
  symmetry. apply Z.ltb_ge. unfold len. simpl List.length. lia.
Qed.

(** X9: the batch is processed in the order of the arguments up to the first
    path that names a directory: the paths before it are dealt with in full,
    the header of the directory is printed, [IsADirectoryError] leaves
    [main], and the paths after it are never looked at. *)
Theorem batch_stops_at_directory fs prog before d after :
  (forall p, In p before -> fs p <> Some Directory) ->
  fs d = Some Directory ->
  main fs (prog :: before ++ d :: after)
  = (flat_map (fun p => fst (main_file fs p)) before
       ++ [Stdout (lit "=== " ++ basename d ++ lit " ===")],
     Raise IsADirectoryError).
Proof.
  intros Hbefore Hd.
  assert (E : main fs (prog :: before ++ d :: after)
              = for_each (main_file fs) (before ++ d :: after)).
  { destruct before; apply main_with_arguments. }
  rewrite E. apply for_each_stops.
  - intros p Hp. apply main_file_returns, Hbefore, Hp.
  - apply main_file_directory, Hd.
Qed.

Lemma batch_stops_at_directory_witness :
  main mixed_folder
       [lit "qb45_symbols.py"; lit "README.BAS"; lit "GONE.BAS";
        lit "SAVES.BAS"; lit "POINT.BAS"]
  = ([Stdout (lit "=== README.BAS ===");
      Stdout (lit "  Error: Not a QB45 binary format file");
      Stderr (lit "File not found: GONE.BAS");
      Stdout (lit "=== SAVES.BAS ===")],
     Raise IsADirectoryError).
Proof.
  refine (eq_trans
            (batch_stops_at_directory mixed_folder (lit "qb45_symbols.py")
               [lit "README.BAS"; lit "GONE.BAS"] (lit "SAVES.BAS")
               [lit "POINT.BAS"] _ eq_refl) _).
  - intros p [<-|[<-|[]]]; vm_compute; discriminate.
  - vm_compute. reflexivity.
Defined.







(** X13: a file that exists and fails the signature check (fewer than 2
    bytes, or a first byte other than 0xFC) is reported on standard output
    by its header and one line "  Error: Not a QB45 binary format file", and
    the loop goes on. *)
Theorem bad_signature_is_reported fs filepath data :
  fs filepath = Some (File data) ->
  len data < 2 \/ hd_error data <> Some xfc ->
  main_file fs filepath
  = ([Stdout (lit "=== " ++ basename filepath ++ lit " ===");
      Stdout (lit "  Error: Not a QB45 binary format file")],
     Ok tt).
Proof.
  intros Hfile Hbad. unfold main_file, path_exists, analyze_file, read_file.
  rewrite Hfile. cbn [negb bind]. rewrite (bad_signature_true _ Hbad).
  reflexivity.
Qed.

Lemma bad_signature_is_reported_witness :
  main_file mixed_folder (lit "README.BAS")
  = ([Stdout (lit "=== README.BAS ===");
      Stdout (lit "  Error: Not a QB45 binary format file")],
     Ok tt).
Proof.
  apply (bad_signature_is_reported mixed_folder (lit "README.BAS")
           [x52; x45; x4d] eq_refl).
  right. discriminate.
Defined.

(** X14: a line of the section of strings has at most 59 characters: four
    spaces, two quotes, at most 50 characters of the string, and the three
    dots when the string was cut. *)
Theorem string_line_is_short (str : pystr) :
  len (show_string str)
  = Z.min (len str) 50 + (if 50 <? len str then 9 else 6)
  /\ len (show_string str) <= 59.
Proof.
  assert (E : len (show_string str)
              = Z.min (len str) 50 + (if 50 <? len str then 9 else 6)).
  { unfold show_string, quote, len. rewrite !length_app, length_firstn.
    destruct (Z.ltb_spec 50 (Z.of_nat (List.length str))) as [Hlt|Hge];
      simpl List.length; lia. }
  split; [exact E|]. rewrite E.
  destruct (Z.ltb_spec 50 (len str)); lia.
Qed.

(** ** [basename] *)

Lemma basename_fold_no_slash (p acc : pystr) :
  ~ In 47 acc ->
  ~ In 47 (fold_left (fun acc c => if c =? 47 then [] else acc ++ [c]) p acc).
Proof.
  revert acc. induction p as [|c p IH]; intros acc Hacc; [exact Hacc|].
  simpl. apply IH. destruct (Z.eqb_spec c 47) as [->|Hc]; [easy|].
  intros Hin. apply in_app_or in Hin as [Hin|[Hin|[]]]; [easy|congruence].
Qed.

Lemma basename_fold_plain (p acc : pystr) :
  ~ In 47 p ->
  fold_left (fun acc c => if c =? 47 then [] else acc ++ [c]) p acc = acc ++ p.
Proof.
  revert acc. induction p as [|c p IH]; intros acc Hp; simpl.
  - rewrite app_nil_r. reflexivity.
  - destruct (Z.eqb_spec c 47) as [->|Hc]; [exfalso; apply Hp; left; reflexivity|].
    rewrite IH by (intros Hin; apply Hp; right; exact Hin).
    rewrite <- app_assoc. reflexivity.
Qed.

(** X15: [basename] gives the part of a path after its last slash: the
    result holds no slash, a name without a slash is its own base name, and
    a directory prefix ending in a slash is dropped. *)
Theorem basename_drops_directories (dir name : pystr) :
  ~ In 47 (basename (dir ++ name))
  /\ (~ In 47 name ->
      basename name = name /\ basename (dir ++ [47] ++ name) = name).
Proof.
  split; [apply basename_fold_no_slash; easy|].
  intros Hname. unfold basename. split.
  - apply (basename_fold_plain name [] Hname).
  - rewrite app_assoc, fold_left_app, fold_left_app. simpl.
    apply (basename_fold_plain name [] Hname).
Qed.

Lemma basename_drops_directories_witness :
  basename (lit "HELLO.BAS") = lit "HELLO.BAS"
  /\ basename (lit "games/old" ++ [47] ++ lit "HELLO.BAS") = lit "HELLO.BAS".
Proof.
  apply (proj2 (basename_drops_directories (lit "games/old") (lit "HELLO.BAS"))).
  vm_compute. intuition discriminate.
Defined.

(** ** The size and the order of the report *)

Lemma sorted_length l : List.length (sorted l) = List.length l.
Proof. apply Permutation_length, sorted_ordered. Qed.

(** X16: the report of a table is bounded: the sections of subs and types
    have one line for each name after their header, the section of variables
    has at most 32 lines and that of strings at most 11, whatever the table
    holds; the report is never empty (it ends with an empty line). *)
Theorem report_is_bounded s :
  len (report_subs s) = (if len (subs s) =? 0 then 0 else 1 + len (subs s))
  /\ len (report_types s) = (if len (types s) =? 0 then 0 else 1 + len (types s))
  /\ len (report_variables s) <= 32
  /\ len (report_strings s) <= 11
  /\ last (report s) (lit "x") = []
  /\ 1 <= len (report s) <= len (subs s) + len (types s) + 46.
Proof.
  assert (H1 : len (report_subs s)
               = (if len (subs s) =? 0 then 0 else 1 + len (subs s))).
  { unfold report_subs, len. destruct (subs s) as [|x xs]; [reflexivity|].
    cbn [List.length]. rewrite length_map, sorted_length. cbn [List.length].
    destruct (Z.eqb_spec (Z.of_nat (S (List.length xs))) 0) as [H0|_]; lia. }
  assert (H2 : len (report_types s)
               = (if len (types s) =? 0 then 0 else 1 + len (types s))).
  { unfold report_types, len. destruct (types s) as [|x xs]; [reflexivity|].
    cbn [List.length]. rewrite length_map, sorted_length. cbn [List.length].
    destruct (Z.eqb_spec (Z.of_nat (S (List.length xs))) 0) as [H0|_]; lia. }
  assert (H3 : len (report_variables s) <= 32).
  { unfold report_variables. destruct (variables s) as [|v vs]; [unfold len; simpl; lia|].
    cbv zeta. destruct (filter (fun w => 3 <? len w) (v :: vs)) as [|w ws];
      [unfold len; simpl; lia|].
    unfold len at 1. cbn [List.length]. rewrite length_app, length_map.
    pose proof (firstn_le_length 30 (sorted (w :: ws))) as Hf.
    destruct (30 <? len (w :: ws)); cbn [List.length]; lia. }
  assert (H4 : len (report_strings s) <= 11).
  { unfold report_strings. destruct (strings s) as [|x xs]; [unfold len; simpl; lia|].
    cbv zeta.
    pose proof (firstn_le_length 10
                  (filter (fun str => 10 <? len str) (x :: xs))) as Hf.
    destruct (firstn 10 (filter (fun str => 10 <? len str) (x :: xs)))
      as [|y ys]; [unfold len; simpl; lia|].
    unfold len at 1. cbn [List.length]. rewrite length_map.
    cbn [List.length] in Hf |- *. unfold pystr in *. lia. }
  repeat (split; [assumption|]).
  split.
  - unfold report. rewrite !app_assoc. apply last_last.
  - unfold report. unfold len in *. rewrite !length_app. simpl List.length.
    destruct (Z.of_nat (List.length (subs s)) =? 0);
      destruct (Z.of_nat (List.length (types s)) =? 0); lia.
Qed.

(** X17: the section of variables shows the variables of more than 3
    characters, sorted.  Its header gives their number, also when only the
    first 30 are listed; beyond 30 the list is cut and one line
    "... and N more" gives the number left out; with no such variable the
    section is absent. *)
Theorem variables_section s :
  (interesting_variables s = [] -> report_variables s = [])
  /\ (interesting_variables s <> [] ->
      len (interesting_variables s) <= 30 ->
      report_variables s
      = variables_header (len (interesting_variables s))
          :: List.map indent (sorted (interesting_variables s)))
  /\ (30 < len (interesting_variables s) ->
      report_variables s
      = variables_header (len (interesting_variables s))
          :: List.map indent (firstn 30 (sorted (interesting_variables s)))
          ++ [lit "    ... and "
                ++ str_of_int (len (interesting_variables s) - 30)
                ++ lit " more"]).
Proof.
  unfold interesting_variables, report_variables, variables_header.
  destruct (variables s) as [|v vs]; cbv zeta.
  - repeat split; try easy; intros H; exfalso; unfold len in H; simpl in H; lia.
  - destruct (filter (fun w => 3 <? len w) (v :: vs)) as [|w ws] eqn:E.
    + repeat split; try easy; intros H; exfalso; unfold len in H; simpl in H; lia.
    + split; [discriminate|]. split.
      * intros _ Hle.
        replace (30 <? len (w :: ws)) with false
          by (symmetry; apply Z.ltb_ge; exact Hle).
        rewrite app_nil_r, firstn_all2; [reflexivity|].
        rewrite sorted_length. unfold len in Hle. lia.
      * intros Hgt.
        replace (30 <? len (w :: ws)) with true
          by (symmetry; apply Z.ltb_lt; exact Hgt).
        reflexivity.
Qed.

Lemma variables_section_witness :
  report_variables few_variables
  = [lit "  Variables (1 shown):"; lit "    count"].
Proof.
  refine (eq_trans
            (proj1 (proj2 (variables_section few_variables)) _ _) _).
  - discriminate.
  - vm_compute. congruence.
  - vm_compute. reflexivity.
Defined.

Lemma str_leb_antisym a : forall b,
  str_leb a b = true -> str_leb b a = true -> a = b.
Proof.
  induction a as [|x a IH]; intros [|y b]; simpl; try easy.
  destruct (Z.ltb_spec x y), (Z.ltb_spec y x); try easy; try lia.
  intros Hab Hba. f_equal; [lia|apply IH; assumption].
Qed.

(** Two ascending lists with the same values are the same list. *)
Lemma ascending_unique l1 : forall l2,
  StronglySorted str_le l1 -> StronglySorted str_le l2 ->
  Permutation l1 l2 -> l1 = l2.
Proof.
  induction l1 as [|x l1 IH]; intros l2 S1 S2 Hperm.
  - apply Permutation_nil in Hperm. congruence.
  - destruct l2 as [|y l2];
      [apply Permutation_sym, Permutation_nil in Hperm; discriminate|].
    apply StronglySorted_inv in S1 as [S1 Hx].
    apply StronglySorted_inv in S2 as [S2 Hy].
    rewrite Forall_forall in Hx, Hy.
    assert (Exy : x = y).
    { assert (Hxin : In x (y :: l2))
        by (eapply Permutation_in; [exact Hperm|left; reflexivity]).
      assert (Hyin : In y (x :: l1))
        by (eapply Permutation_in;
            [apply Permutation_sym, Hperm|left; reflexivity]).
      destruct Hxin as [->|Hxin]; [reflexivity|].
      destruct Hyin as [->|Hyin]; [reflexivity|].
      apply str_leb_antisym; [apply Hx, Hyin|apply Hy, Hxin]. }
    subst y. f_equal. apply IH; [exact S1|exact S2|].
    apply Permutation_cons_inv in Hperm. exact Hperm.
Qed.

(** X18: the lists printed sorted do not depend on the order in which the
    scanner found the names: two lists with the same names sort to the same
    list, and sorting a sorted list changes nothing. *)
Theorem sorted_forgets_order (l l' : list pystr) :
  (Permutation l l' -> sorted l = sorted l')
  /\ sorted (sorted l) = sorted l.
Proof.
  split.
  - intros Hperm.
    destruct (sorted_ordered l) as [S1 P1], (sorted_ordered l') as [S2 P2].
    apply ascending_unique; [exact S1|exact S2|].
    rewrite P1, P2. exact Hperm.
  - destruct (sorted_ordered l) as [S1 P1].
    destruct (sorted_ordered (sorted l)) as [S2 P2].
    apply ascending_unique; assumption.
Qed.

Lemma sorted_forgets_order_witness :
  sorted [lit "ZED"; lit "ABE"] = sorted [lit "ABE"; lit "ZED"].
Proof.
  apply (proj1 (sorted_forgets_order [lit "ZED"; lit "ABE"]
                  [lit "ABE"; lit "ZED"])).
  apply perm_swap.
Defined.

Lemma sub_char_is_var_char c : sub_char c = true -> var_char c = true.
Proof.
  unfold sub_char, var_char. intros H.
  apply orb_true_iff in H as [H|H]; [|rewrite H; rewrite !orb_true_r; reflexivity].
  rewrite H. reflexivity.
Qed.

Lemma at_dollar_wider (s : pystr) :
  at_dollar (drop_while sub_char s) = true ->
  at_dollar (drop_while var_char s) = true.
Proof.
  induction s as [|c s IH]; [easy|]. simpl.
  destruct (sub_char c) eqn:Hsub.
  - rewrite (sub_char_is_var_char _ Hsub). exact IH.
  - destruct s as [|d s]; [|discriminate].
    simpl. intros Hc. apply Z.eqb_eq in Hc. subst c. reflexivity.
Qed.

(** X19: the pattern of line 73 is the stricter of the two: whatever it
    matches, the pattern of line 57 matches too. *)
Theorem sub_pattern_is_stricter (name : pystr) :
  match_sub name = true -> match_variable name = true.
Proof.
  unfold match_sub, match_variable, match_ident.
  destruct name as [|c rest]; [discriminate|].
  intros H. apply andb_true_iff in H as [Hstart Hrest].
  rewrite Hstart. apply at_dollar_wider, Hrest.
Qed.

Lemma sub_pattern_is_stricter_witness :
  match_variable (lit "Main_1") = true.
Proof. apply (sub_pattern_is_stricter (lit "Main_1")). reflexivity. Defined.

(** The pattern of line 57 is wider in earnest: it takes the type suffixes. *)
Example variable_pattern_is_wider :
  match_variable (lit "total%") = true /\ match_sub (lit "total%") = false.
Proof. split; reflexivity. Qed.

Lemma names_are_printable_witness :
  exists s,
    extract_symbols mixed_file = Ok s
    /\ variables s = [lit "count"; lit "x1"]
    /\ (1 < len (lit "x1") /\ identifier (lit "x1") = true).
Proof.
  destruct (names_are_printable mixed_file) as (s & Hs & _ & Hvars).
  exists s. split; [exact Hs|].
  assert (E : extract_symbols mixed_file
              = Ok (mkSymbols [] [] [lit "Rec"] [lit "count"; lit "x1"] []))
    by (vm_compute; reflexivity).
  rewrite E in Hs. injection Hs as <-. split; [reflexivity|].
  apply Hvars. right. left. reflexivity.
Defined.

Lemma strings_look_like_text_witness :
  exists s,
    extract_symbols seven_bytes = Ok s
    /\ 5 < len (lit "ABCDEF") < 200.
Proof.
  destruct (strings_look_like_text seven_bytes) as (s & Hs & Hall).
  exists s. split; [exact Hs|].
  assert (E : extract_symbols seven_bytes
              = Ok (mkSymbols [] [] [] [] [lit "ABCDEF"]))
    by (vm_compute; reflexivity).
  rewrite E in Hs. injection Hs as <-.
  apply (Hall (lit "ABCDEF")). left. reflexivity.
Defined.
